(** * KineticJS Stage: pointer and touch event routing

    A shallow embedding of [src/Stage.js]: the per-stage interaction state
    ([targetShape], the press/release/move flags, the click window), the
    scene walk ([_traverseChildren], [_handleStageEvent]), the per-shape
    decision ([_detectEvent]), the DOM listeners bound in [_listen] and the
    drag listeners bound in [_prepareDrag].

    JavaScript objects are mutated in place; here every handler takes the
    world before and returns the world after.  A call
    [node._handleEvents(name, evt)] is recorded in the [emitted] list of the
    world: "the stage emits name on node" means exactly that call. *)

From Stdlib Require Import ZArith List Bool Lia.
From Stdlib Require String.
Import String.StringSyntax.
Delimit Scope string_scope with string.
Import ListNotations.
Open Scope Z_scope.
Set Warnings "-register-all".

(** ** Data *)

(** A position object [{x: .., y: ..}].  Coordinates, like clock
    readings, are taken to be integers. *)
Record Pos := { px : Z; py : Z }.

(** The event names handed to [node._handleEvents]. *)
Inductive EventName :=
| mousedown | mouseup | click | dblclick
| touchstart | touchend | tap | dbltap
| mouseover | mouseout | mousemove | touchmove
| dragstart | dragmove | dragend.

Definition EventName_eqb (a b : EventName) : bool :=
  match a, b with
  | mousedown, mousedown | mouseup, mouseup | click, click
  | dblclick, dblclick | touchstart, touchstart | touchend, touchend
  | tap, tap | dbltap, dbltap | mouseover, mouseover | mouseout, mouseout
  | mousemove, mousemove | touchmove, touchmove | dragstart, dragstart
  | dragmove, dragmove | dragend, dragend => true
  | _, _ => false
  end.

(** One call of [_handleEvents]: the event name and the [_id] of the node
    it was called on. *)
Record Emission := { ename : EventName; enode : nat }.

(** A shape as the stage sees it.  [isVisible] and [intersects] are the
    answers of the methods of the same name (Node.js and Shape.js);
    [listening] is [attrs.listening]; [eventListeners] is the truth value of
    the property of that name. *)
Record Shape := {
  _id : nat;
  eventListeners : bool;
  listening : bool;
  isVisible : bool;
  intersects : Pos -> bool
}.

(** A child of a layer or of a group: [nodeType === 'Shape'] or a container
    with its own [children]. *)
Inductive Node :=
| ShapeNode (s : Shape)
| ContainerNode (attrs_listening : bool) (children : list Node).

(** A child of the stage. *)
Record Layer := {
  layerVisible : bool;
  layerListening : bool;
  layerChildren : list Node
}.

(** The fields of [this] that the event code reads and writes; the last
    three are configuration ([attrs.throttle], [dblClickWindow] and the
    stage's [children]). *)
Record Stage := {
  targetShape : option Shape;
  targetFound : bool;
  mouseoverShape : option Shape;
  mouseoutShape : option Shape;
  mousePos : option Pos;
  mouseDown : bool;
  mouseUp : bool;
  mouseMove : bool;
  clickStart : bool;
  touchPos : option Pos;
  touchStart : bool;
  touchEnd : bool;
  touchMove : bool;
  tapStart : bool;
  lastEventTime : Z;
  throttle : Z;
  dblClickWindow : Z;
  children : list Layer
}.

Definition set_targetShape (v : option Shape) (s : Stage) : Stage :=
  {| targetShape := v; targetFound := targetFound s;
     mouseoverShape := mouseoverShape s; mouseoutShape := mouseoutShape s;
     mousePos := mousePos s; mouseDown := mouseDown s; mouseUp := mouseUp s;
     mouseMove := mouseMove s; clickStart := clickStart s;
     touchPos := touchPos s; touchStart := touchStart s;
     touchEnd := touchEnd s; touchMove := touchMove s;
     tapStart := tapStart s; lastEventTime := lastEventTime s;
     throttle := throttle s; dblClickWindow := dblClickWindow s;
     children := children s |}.

Definition set_targetFound (v : bool) (s : Stage) : Stage :=
  {| targetShape := targetShape s; targetFound := v;
     mouseoverShape := mouseoverShape s; mouseoutShape := mouseoutShape s;
     mousePos := mousePos s; mouseDown := mouseDown s; mouseUp := mouseUp s;
     mouseMove := mouseMove s; clickStart := clickStart s;
     touchPos := touchPos s; touchStart := touchStart s;
     touchEnd := touchEnd s; touchMove := touchMove s;
     tapStart := tapStart s; lastEventTime := lastEventTime s;
     throttle := throttle s; dblClickWindow := dblClickWindow s;
     children := children s |}.

Definition set_mouseoverShape (v : option Shape) (s : Stage) : Stage :=
  {| targetShape := targetShape s; targetFound := targetFound s;
     mouseoverShape := v; mouseoutShape := mouseoutShape s;
     mousePos := mousePos s; mouseDown := mouseDown s; mouseUp := mouseUp s;
     mouseMove := mouseMove s; clickStart := clickStart s;
     touchPos := touchPos s; touchStart := touchStart s;
     touchEnd := touchEnd s; touchMove := touchMove s;
     tapStart := tapStart s; lastEventTime := lastEventTime s;
     throttle := throttle s; dblClickWindow := dblClickWindow s;
     children := children s |}.

Definition set_mouseoutShape (v : option Shape) (s : Stage) : Stage :=
  {| targetShape := targetShape s; targetFound := targetFound s;
     mouseoverShape := mouseoverShape s; mouseoutShape := v;
     mousePos := mousePos s; mouseDown := mouseDown s; mouseUp := mouseUp s;
     mouseMove := mouseMove s; clickStart := clickStart s;
     touchPos := touchPos s; touchStart := touchStart s;
     touchEnd := touchEnd s; touchMove := touchMove s;
     tapStart := tapStart s; lastEventTime := lastEventTime s;
     throttle := throttle s; dblClickWindow := dblClickWindow s;
     children := children s |}.

Definition set_mousePos (v : option Pos) (s : Stage) : Stage :=
  {| targetShape := targetShape s; targetFound := targetFound s;
     mouseoverShape := mouseoverShape s; mouseoutShape := mouseoutShape s;
     mousePos := v; mouseDown := mouseDown s; mouseUp := mouseUp s;
     mouseMove := mouseMove s; clickStart := clickStart s;
     touchPos := touchPos s; touchStart := touchStart s;
     touchEnd := touchEnd s; touchMove := touchMove s;
     tapStart := tapStart s; lastEventTime := lastEventTime s;
     throttle := throttle s; dblClickWindow := dblClickWindow s;
     children := children s |}.

Definition set_mouseDown (v : bool) (s : Stage) : Stage :=
  {| targetShape := targetShape s; targetFound := targetFound s;
     mouseoverShape := mouseoverShape s; mouseoutShape := mouseoutShape s;
     mousePos := mousePos s; mouseDown := v; mouseUp := mouseUp s;
     mouseMove := mouseMove s; clickStart := clickStart s;
     touchPos := touchPos s; touchStart := touchStart s;
     touchEnd := touchEnd s; touchMove := touchMove s;
     tapStart := tapStart s; lastEventTime := lastEventTime s;
     throttle := throttle s; dblClickWindow := dblClickWindow s;
     children := children s |}.

Definition set_mouseUp (v : bool) (s : Stage) : Stage :=
  {| targetShape := targetShape s; targetFound := targetFound s;
     mouseoverShape := mouseoverShape s; mouseoutShape := mouseoutShape s;
     mousePos := mousePos s; mouseDown := mouseDown s; mouseUp := v;
     mouseMove := mouseMove s; clickStart := clickStart s;
     touchPos := touchPos s; touchStart := touchStart s;
     touchEnd := touchEnd s; touchMove := touchMove s;
     tapStart := tapStart s; lastEventTime := lastEventTime s;
     throttle := throttle s; dblClickWindow := dblClickWindow s;
     children := children s |}.

Definition set_mouseMove (v : bool) (s : Stage) : Stage :=
  {| targetShape := targetShape s; targetFound := targetFound s;
     mouseoverShape := mouseoverShape s; mouseoutShape := mouseoutShape s;
     mousePos := mousePos s; mouseDown := mouseDown s; mouseUp := mouseUp s;
     mouseMove := v; clickStart := clickStart s; touchPos := touchPos s;
     touchStart := touchStart s; touchEnd := touchEnd s;
     touchMove := touchMove s; tapStart := tapStart s;
     lastEventTime := lastEventTime s; throttle := throttle s;
     dblClickWindow := dblClickWindow s; children := children s |}.

Definition set_clickStart (v : bool) (s : Stage) : Stage :=
  {| targetShape := targetShape s; targetFound := targetFound s;
     mouseoverShape := mouseoverShape s; mouseoutShape := mouseoutShape s;
     mousePos := mousePos s; mouseDown := mouseDown s; mouseUp := mouseUp s;
     mouseMove := mouseMove s; clickStart := v; touchPos := touchPos s;
     touchStart := touchStart s; touchEnd := touchEnd s;
     touchMove := touchMove s; tapStart := tapStart s;
     lastEventTime := lastEventTime s; throttle := throttle s;
     dblClickWindow := dblClickWindow s; children := children s |}.

Definition set_touchPos (v : option Pos) (s : Stage) : Stage :=
  {| targetShape := targetShape s; targetFound := targetFound s;
     mouseoverShape := mouseoverShape s; mouseoutShape := mouseoutShape s;
     mousePos := mousePos s; mouseDown := mouseDown s; mouseUp := mouseUp s;
     mouseMove := mouseMove s; clickStart := clickStart s; touchPos := v;
     touchStart := touchStart s; touchEnd := touchEnd s;
     touchMove := touchMove s; tapStart := tapStart s;
     lastEventTime := lastEventTime s; throttle := throttle s;
     dblClickWindow := dblClickWindow s; children := children s |}.

Definition set_touchStart (v : bool) (s : Stage) : Stage :=
  {| targetShape := targetShape s; targetFound := targetFound s;
     mouseoverShape := mouseoverShape s; mouseoutShape := mouseoutShape s;
     mousePos := mousePos s; mouseDown := mouseDown s; mouseUp := mouseUp s;
     mouseMove := mouseMove s; clickStart := clickStart s;
     touchPos := touchPos s; touchStart := v; touchEnd := touchEnd s;
     touchMove := touchMove s; tapStart := tapStart s;
     lastEventTime := lastEventTime s; throttle := throttle s;
     dblClickWindow := dblClickWindow s; children := children s |}.

Definition set_touchEnd (v : bool) (s : Stage) : Stage :=
  {| targetShape := targetShape s; targetFound := targetFound s;
     mouseoverShape := mouseoverShape s; mouseoutShape := mouseoutShape s;
     mousePos := mousePos s; mouseDown := mouseDown s; mouseUp := mouseUp s;
     mouseMove := mouseMove s; clickStart := clickStart s;
     touchPos := touchPos s; touchStart := touchStart s; touchEnd := v;
     touchMove := touchMove s; tapStart := tapStart s;
     lastEventTime := lastEventTime s; throttle := throttle s;
     dblClickWindow := dblClickWindow s; children := children s |}.

Definition set_touchMove (v : bool) (s : Stage) : Stage :=
  {| targetShape := targetShape s; targetFound := targetFound s;
     mouseoverShape := mouseoverShape s; mouseoutShape := mouseoutShape s;
     mousePos := mousePos s; mouseDown := mouseDown s; mouseUp := mouseUp s;
     mouseMove := mouseMove s; clickStart := clickStart s;
     touchPos := touchPos s; touchStart := touchStart s;
     touchEnd := touchEnd s; touchMove := v; tapStart := tapStart s;
     lastEventTime := lastEventTime s; throttle := throttle s;
     dblClickWindow := dblClickWindow s; children := children s |}.

Definition set_tapStart (v : bool) (s : Stage) : Stage :=
  {| targetShape := targetShape s; targetFound := targetFound s;
     mouseoverShape := mouseoverShape s; mouseoutShape := mouseoutShape s;
     mousePos := mousePos s; mouseDown := mouseDown s; mouseUp := mouseUp s;
     mouseMove := mouseMove s; clickStart := clickStart s;
     touchPos := touchPos s; touchStart := touchStart s;
     touchEnd := touchEnd s; touchMove := touchMove s; tapStart := v;
     lastEventTime := lastEventTime s; throttle := throttle s;
     dblClickWindow := dblClickWindow s; children := children s |}.

Definition set_lastEventTime (v : Z) (s : Stage) : Stage :=
  {| targetShape := targetShape s; targetFound := targetFound s;
     mouseoverShape := mouseoverShape s; mouseoutShape := mouseoutShape s;
     mousePos := mousePos s; mouseDown := mouseDown s; mouseUp := mouseUp s;
     mouseMove := mouseMove s; clickStart := clickStart s;
     touchPos := touchPos s; touchStart := touchStart s;
     touchEnd := touchEnd s; touchMove := touchMove s;
     tapStart := tapStart s; lastEventTime := v; throttle := throttle s;
     dblClickWindow := dblClickWindow s; children := children s |}.
(** [attrs.dragConstraint]: any string other than the two tested ones
    behaves like ['none']. *)
Inductive DragConstraint := dcNone | horizontal | vertical.

(** [attrs.dragBounds]: each side is a number or undefined. *)
Record DragBounds := {
  left : option Z;
  right : option Z;
  top : option Z;
  bottom : option Z
}.

(** The attributes of a node that the drag listener touches. *)
Record NodeAttrs := {
  x : Z;
  y : Z;
  dragConstraint : DragConstraint;
  dragBounds : DragBounds
}.

(** [Kinetic.GlobalObject.drag]; [node] is the [_id] of the node held. *)
Record Drag := {
  node : option nat;
  moving : bool;
  offset : Pos
}.

(** A pending [setTimeout] callback that will clear
    [shape.inDoubleClickWindow]. *)
Record Timer := { due : Z; tshape : nat }.

(** Everything an event handler can read or write.  [attrsOf] and
    [inDoubleClickWindow] hold per-object fields, keyed by [_id];
    [probed] records the shapes handed to [_detectEvent], in order. *)
Record World := {
  stage : Stage;
  drag : Drag;
  attrsOf : nat -> NodeAttrs;
  inDoubleClickWindow : nat -> bool;
  timers : list Timer;
  emitted : list Emission;
  probed : list nat
}.

Definition onStage (f : Stage -> Stage) (w : World) : World :=
  {| stage := f (stage w); drag := drag w; attrsOf := attrsOf w;
     inDoubleClickWindow := inDoubleClickWindow w; timers := timers w;
     emitted := emitted w; probed := probed w |}.

Definition set_drag (d : Drag) (w : World) : World :=
  {| stage := stage w; drag := d; attrsOf := attrsOf w;
     inDoubleClickWindow := inDoubleClickWindow w; timers := timers w;
     emitted := emitted w; probed := probed w |}.

Definition set_attrsOf (n : nat) (a : NodeAttrs) (w : World) : World :=
  {| stage := stage w; drag := drag w;
     attrsOf := fun m => if Nat.eqb m n then a else attrsOf w m;
     inDoubleClickWindow := inDoubleClickWindow w; timers := timers w;
     emitted := emitted w; probed := probed w |}.

Definition set_inDoubleClickWindow (n : nat) (b : bool) (w : World) : World :=
  {| stage := stage w; drag := drag w; attrsOf := attrsOf w;
     inDoubleClickWindow :=
       fun m => if Nat.eqb m n then b else inDoubleClickWindow w m;
     timers := timers w; emitted := emitted w; probed := probed w |}.

(** [setTimeout(function() { shape.inDoubleClickWindow = false; }, delay)]
    called while the clock reads [lastEventTime]. *)
Definition setTimeout (shape : Shape) (delay : Z) (w : World) : World :=
  {| stage := stage w; drag := drag w; attrsOf := attrsOf w;
     inDoubleClickWindow := inDoubleClickWindow w;
     timers := timers w ++
       [{| due := lastEventTime (stage w) + delay; tshape := _id shape |}];
     emitted := emitted w; probed := probed w |}.

(** [n._handleEvents(name, evt)]. *)
Definition _handleEvents (n : nat) (name : EventName) (w : World) : World :=
  {| stage := stage w; drag := drag w; attrsOf := attrsOf w;
     inDoubleClickWindow := inDoubleClickWindow w; timers := timers w;
     emitted := emitted w ++ [{| ename := name; enode := n |}];
     probed := probed w |}.

Definition probe (shape : Shape) (w : World) : World :=
  {| stage := stage w; drag := drag w; attrsOf := attrsOf w;
     inDoubleClickWindow := inDoubleClickWindow w; timers := timers w;
     emitted := emitted w; probed := probed w ++ [_id shape] |}.

(** ** Positions *)

Definition getMousePosition (s : Stage) : option Pos := mousePos s.

Definition getTouchPosition (s : Stage) : option Pos := touchPos s.

(** [this.getTouchPosition() || this.getMousePosition()]: a position
    object is truthy, [undefined] is not. *)
Definition getUserPosition (s : Stage) : option Pos :=
  match getTouchPosition s with
  | Some p => Some p
  | None => getMousePosition s
  end.

(** A DOM event delivered to the stage's content element. *)
Inductive DomEvent :=
| DomMousedown | DomMousemove | DomMouseup | DomMouseover | DomMouseout
| DomTouchstart | DomTouchmove | DomTouchend.

(** What the listeners read from the event and from the clock: [time] is
    [new Date().getTime()] when the listener runs, [mouseXY] the pair
    computed by [_setMousePosition] from the event, [touches] the list
    [evt.touches] (each contact already turned into content coordinates as
    [_setTouchPosition] does), [None] when the property is undefined. *)
Record RawEvent := {
  etype : DomEvent;
  time : Z;
  mouseXY : Pos;
  touches : option (list Pos)
}.

Definition _setMousePosition (evt : RawEvent) (s : Stage) : Stage :=
  set_mousePos (Some (mouseXY evt)) s.

Definition _setTouchPosition (evt : RawEvent) (s : Stage) : Stage :=
  match touches evt with
  | Some [touch] => set_touchPos (Some touch) s
  | _ => s
  end.

(** ** Target tracking *)

Definition _setTarget (shape : option Shape) (s : Stage) : Stage :=
  set_targetFound true (set_targetShape shape s).

(** [_isNewTarget]: the answer, and the stage after the assignment to
    [mouseoutShape] the function may make. *)
Definition _isNewTarget (shape : Shape) (s : Stage) : bool * Stage :=
  match targetShape s with
  | None => (true, s)
  | Some target =>
      if negb (targetFound s) && negb (Nat.eqb (_id shape) (_id target))
      then (true,
            if eventListeners target
            then set_mouseoutShape (Some target) s
            else s)
      else (false, s)
  end.

(** ** The per-shape decision *)

(** The test [shape.isVisible() && pos !== undefined &&
    shape.intersects(pos)]. *)
Definition hit (shape : Shape) (pos : option Pos) : bool :=
  isVisible shape &&
  match pos with
  | Some p => intersects shape p
  | None => false
  end.

(** [(!go.drag.moving) || !go.drag.node]. *)
Definition noDragAndDrop (d : Drag) : bool :=
  negb (moving d) || match node d with Some _ => false | None => true end.

(** The click bookkeeping shared (textually twice in the source) by the
    mouseup and the touchend branch: [single] is click or tap, [double]
    dblclick or dbltap. *)
Definition clickOrTap (shape : Shape) (single double : EventName)
    (w : World) : World :=
  if noDragAndDrop (drag w)
  then
    let w := _handleEvents (_id shape) single w in
    let w := if inDoubleClickWindow w (_id shape)
             then _handleEvents (_id shape) double w
             else w in
    let w := set_inDoubleClickWindow (_id shape) true w in
    setTimeout shape (dblClickWindow (stage w)) w
  else w.

Definition _detectEvent (shape : Shape) (w : World) : bool * World :=
  let w := probe shape w in
  let isDragging := moving (drag w) in
  let pos := getUserPosition (stage w) in
  let w :=
    match targetShape (stage w) with
    | Some target =>
        if Nat.eqb (_id shape) (_id target)
        then onStage (set_targetFound true) w
        else w
    | None => w
    end in
  if hit shape pos then
    (* handle onmousedown *)
    if negb isDragging && mouseDown (stage w) then
      let w := onStage (set_mouseDown false) w in
      let w := onStage (set_clickStart true) w in
      (true, _handleEvents (_id shape) mousedown w)
    (* handle onmouseup & onclick *)
    else if mouseUp (stage w) then
      let w := onStage (set_mouseUp false) w in
      let w := _handleEvents (_id shape) mouseup w in
      (true, if clickStart (stage w) then clickOrTap shape click dblclick w
             else w)
    (* handle touchstart *)
    else if negb isDragging && touchStart (stage w) then
      let w := onStage (set_touchStart false) w in
      let w := onStage (set_tapStart true) w in
      (true, _handleEvents (_id shape) touchstart w)
    (* handle touchend & tap *)
    else if touchEnd (stage w) then
      let w := onStage (set_touchEnd false) w in
      let w := _handleEvents (_id shape) touchend w in
      (true, if tapStart (stage w) then clickOrTap shape tap dbltap w
             else w)
    (* handle onmouseover *)
    else if negb isDragging && fst (_isNewTarget shape (stage w)) then
      let w := onStage (fun s => snd (_isNewTarget shape s)) w in
      let w :=
        match mouseoutShape (stage w) with
        | Some out =>
            let w := onStage (set_mouseoverShape (Some shape)) w in
            let w := _handleEvents (_id out) mouseout w in
            onStage (set_mouseoverShape None) w
        | None => w
        end in
      let w := _handleEvents (_id shape) mouseover w in
      (true, onStage (_setTarget (Some shape)) w)
    (* handle mousemove and touchmove *)
    else if negb isDragging && mouseMove (stage w) then
      (true, _handleEvents (_id shape) mousemove w)
    else if negb isDragging && touchMove (stage w) then
      (true, _handleEvents (_id shape) touchmove w)
    else (false, w)
  (* handle mouseout condition *)
  else if negb isDragging &&
          match targetShape (stage w) with
          | Some target => Nat.eqb (_id target) (_id shape)
          | None => false
          end
  then
    let w := onStage (_setTarget None) w in
    (true, onStage (set_mouseoutShape (Some shape)) w)
  else (false, w).

(** ** The scene walk *)

(** The body of the loop of [_traverseChildren] for one child; the inner
    [fix] is the loop itself on the child's own children.  The loop runs
    from the last index down, so the tail of the list is walked before its
    head. *)
Fixpoint traverseChild (child : Node) (w : World) : bool * World :=
  match child with
  | ShapeNode shape =>
      if listening shape then _detectEvent shape w else (false, w)
  | ContainerNode l cs =>
      if l then
        (fix backwards (cs : list Node) (w : World) : bool * World :=
           match cs with
           | [] => (false, w)
           | c :: above =>
               let (exit, w) := backwards above w in
               if exit then (true, w) else traverseChild c w
           end) cs w
      else (false, w)
  end.

Fixpoint _traverseChildren (cs : list Node) (w : World) : bool * World :=
  match cs with
  | [] => (false, w)
  | c :: above =>
      let (exit, w) := _traverseChildren above w in
      if exit then (true, w) else traverseChild c w
  end.

(** The loop over [this.children] in [_handleStageEvent], last layer
    first; the answer is [shapeDetected]. *)
Fixpoint traverseLayers (ls : list Layer) (w : World) : bool * World :=
  match ls with
  | [] => (false, w)
  | layer :: above =>
      let (shapeDetected, w) := traverseLayers above w in
      if shapeDetected then (true, w)
      else if layerVisible layer && layerListening layer
           then _traverseChildren (layerChildren layer) w
           else (false, w)
  end.

(** The statements of [_handleStageEvent] before the loop: the clock,
    the two positions, and [targetFound = false]. *)
Definition recordEvent (evt : RawEvent) (w : World) : World :=
  let w := onStage (set_lastEventTime (time evt)) w in
  let w := onStage (_setMousePosition evt) w in
  let w := onStage (_setTouchPosition evt) w in
  onStage (set_targetFound false) w.

Definition _handleStageEvent (evt : RawEvent) (w : World) : World :=
  let w := recordEvent evt w in
  let (shapeDetected, w) := traverseLayers (children (stage w)) w in
  if negb shapeDetected then
    match mouseoutShape (stage w) with
    | Some out =>
        let w := _handleEvents (_id out) mouseout w in
        onStage (set_mouseoutShape None) w
    | None => w
    end
  else w.

(** ** The listeners bound in [_listen] *)

(** [timeDiff >= 1000 / throttle] for the clock reading [t].  The
    quotient is not rounded here: for a positive rate the test is
    [timeDiff * throttle >= 1000]; a rate of zero gives [Infinity], which
    no difference reaches; a negative rate turns the inequality around. *)
Definition throttlePassed (s : Stage) (t : Z) : bool :=
  let timeDiff := t - lastEventTime s in
  match throttle s ?= 0 with
  | Gt => 1000 <=? timeDiff * throttle s
  | Eq => false
  | Lt => timeDiff * throttle s <=? 1000
  end.

Definition setMouseFlags (down up move : bool) (s : Stage) : Stage :=
  set_mouseMove move (set_mouseUp up (set_mouseDown down s)).

Definition setTouchFlags (start end_ move : bool) (s : Stage) : Stage :=
  set_touchMove move (set_touchEnd end_ (set_touchStart start s)).

(** The stage's own [_initDrag()] call after a press (Node.js) only binds
    a listener on the stage node and changes nothing held in [World]. *)
Definition onMousedown (evt : RawEvent) (w : World) : World :=
  _handleStageEvent evt (onStage (setMouseFlags true false false) w).

Definition onMousemove (evt : RawEvent) (w : World) : World :=
  if throttlePassed (stage w) (time evt)
  then _handleStageEvent evt (onStage (setMouseFlags false false true) w)
  else w.

Definition onMouseup (evt : RawEvent) (w : World) : World :=
  let w := _handleStageEvent evt
             (onStage (setMouseFlags false true false) w) in
  onStage (set_clickStart false) w.

Definition onMouseover (evt : RawEvent) (w : World) : World :=
  _handleStageEvent evt w.

Definition onMouseout (evt : RawEvent) (w : World) : World :=
  let w :=
    match targetShape (stage w) with
    | Some target =>
        let w := _handleEvents (_id target) mouseout w in
        onStage (set_targetShape None) w
    | None => w
    end in
  onStage (set_mousePos None) w.

Definition onTouchstart (evt : RawEvent) (w : World) : World :=
  _handleStageEvent evt (onStage (setTouchFlags true false false) w).

Definition onTouchmove (evt : RawEvent) (w : World) : World :=
  if throttlePassed (stage w) (time evt)
  then _handleStageEvent evt (onStage (setTouchFlags false false true) w)
  else w.

Definition onTouchend (evt : RawEvent) (w : World) : World :=
  let w := _handleStageEvent evt
             (onStage (setTouchFlags false true false) w) in
  onStage (set_tapStart false) w.

Definition _listen (evt : RawEvent) (w : World) : World :=
  match etype evt with
  | DomMousedown => onMousedown evt w
  | DomMousemove => onMousemove evt w
  | DomMouseup => onMouseup evt w
  | DomMouseover => onMouseover evt w
  | DomMouseout => onMouseout evt w
  | DomTouchstart => onTouchstart evt w
  | DomTouchmove => onTouchmove evt w
  | DomTouchend => onTouchend evt w
  end.

(** ** Drag and drop *)

Definition _endDrag (w : World) : World :=
  let w :=
    match node (drag w) with
    | Some n =>
        if moving (drag w) then
          let w := set_drag {| node := node (drag w); moving := false;
                               offset := offset (drag w) |} w in
          _handleEvents n dragend w
        else w
    | None => w
    end in
  set_drag {| node := None; moving := moving (drag w);
              offset := offset (drag w) |} w.

(** The four "bounds overrides" of the drag listener, in source order. *)
Definition boundsOverrides (db : DragBounds) (newNodePos : Pos) : Pos :=
  let p := newNodePos in
  let p := match left db with
           | Some l => if px p <? l then {| px := l; py := py p |} else p
           | None => p
           end in
  let p := match right db with
           | Some r => if px p >? r then {| px := r; py := py p |} else p
           | None => p
           end in
  let p := match top db with
           | Some t => if py p <? t then {| px := px p; py := t |} else p
           | None => p
           end in
  match bottom db with
  | Some b => if py p >? b then {| px := px p; py := b |} else p
  | None => p
  end.

(** The "constraint overrides": one coordinate is put back. *)
Definition constraintOverrides (dc : DragConstraint) (lastNodePos : Pos)
    (a : NodeAttrs) : NodeAttrs :=
  match dc with
  | horizontal =>
      {| x := x a; y := py lastNodePos;
         dragConstraint := dragConstraint a; dragBounds := dragBounds a |}
  | vertical =>
      {| x := px lastNodePos; y := y a;
         dragConstraint := dragConstraint a; dragBounds := dragBounds a |}
  | dcNone => a
  end.

Section DragAndDrop.

(** [node.setAbsolutePosition] lives in Node.js.  It ends by writing
    [attrs.x] and [attrs.y]; which local coordinates an absolute point
    becomes depends on the transforms of the ancestors, so that map is
    left open. *)
Variable localPosition : NodeAttrs -> Pos -> Pos.

Definition setAbsolutePosition (a : NodeAttrs) (p : Pos) : NodeAttrs :=
  let q := localPosition a p in
  {| x := px q; y := py q;
     dragConstraint := dragConstraint a; dragBounds := dragBounds a |}.

(** The node attributes after one run of the move listener of
    [_prepareDrag], for the user position [pos]. *)
Definition dragNode (offset pos : Pos) (a : NodeAttrs) : NodeAttrs :=
  let dc := dragConstraint a in
  let db := dragBounds a in
  let lastNodePos := {| px := x a; py := y a |} in
  let newNodePos := {| px := px pos - px offset;
                       py := py pos - py offset |} in
  let newNodePos := boundsOverrides db newNodePos in
  let a := setAbsolutePosition a newNodePos in
  constraintOverrides dc lastNodePos a.

(** The listener bound to mousemove and touchmove by [_prepareDrag].
    With no user position, reading [pos.x] throws before anything is
    written.  The redraw of the layer (or of the stage) is not part of
    the world. *)
Definition onDragMove (w : World) : World :=
  match node (drag w) with
  | Some n =>
      match getUserPosition (stage w) with
      | Some pos =>
          let w := set_attrsOf n
                     (dragNode (offset (drag w)) pos (attrsOf w n)) w in
          let w :=
            if negb (moving (drag w)) then
              let w := set_drag {| node := node (drag w); moving := true;
                                   offset := offset (drag w) |} w in
              _handleEvents n dragstart w
            else w in
          _handleEvents n dragmove w
      | None => w
      end
  | None => w
  end.

Definition _prepareDrag (evt : RawEvent) (w : World) : World :=
  match etype evt with
  | DomMousemove | DomTouchmove => onDragMove w
  | DomMouseup | DomTouchend | DomMouseout => _endDrag w
  | _ => w
  end.

(** ** The event loop *)

(** The callbacks whose delay has run out when the clock reads [now]
    are called, and leave the queue, before the next listener runs. *)
Definition runTimers (now : Z) (w : World) : World :=
  {| stage := stage w; drag := drag w; attrsOf := attrsOf w;
     inDoubleClickWindow :=
       fun n => if existsb (fun t => (due t <=? now) && Nat.eqb (tshape t) n)
                          (timers w)
                then false else inDoubleClickWindow w n;
     timers := filter (fun t => now <? due t) (timers w);
     emitted := emitted w; probed := probed w |}.

(** One DOM event: the constructor calls [_listen()] before
    [_prepareDrag()], so the listeners of [_listen] run first. *)
Definition domEvent (evt : RawEvent) (w : World) : World :=
  _prepareDrag evt (_listen evt (runTimers (time evt) w)).

Definition run (w : World) (evts : list RawEvent) : World :=
  fold_left (fun w evt => domEvent evt w) evts w.

End DragAndDrop.

(** ** The state built by the constructor *)

(** The stage after [Kinetic.Stage(config)] and the [add] of its layers:
    [_setStageDefaultProperties], [lastEventTime = 0],
    [dblClickWindow = 400] and the configured [throttle] (80 unless the
    configuration says otherwise). *)
Definition newStage (rate : Z) (layers : list Layer) : Stage :=
  {| targetShape := None; targetFound := false;
     mouseoverShape := None; mouseoutShape := None;
     mousePos := None; mouseDown := false; mouseUp := false;
     mouseMove := false; clickStart := false;
     touchPos := None; touchStart := false; touchEnd := false;
     touchMove := false; tapStart := false;
     lastEventTime := 0; throttle := rate; dblClickWindow := 400;
     children := layers |}.

(** A world in which nothing has happened yet: no drag is armed, no
    window is open, no timer is pending. *)
Definition newWorld (rate : Z) (layers : list Layer)
    (attrs : nat -> NodeAttrs) : World :=
  {| stage := newStage rate layers;
     drag := {| node := None; moving := false;
                offset := {| px := 0; py := 0 |} |};
     attrsOf := attrs;
     inDoubleClickWindow := fun _ => false;
     timers := []; emitted := []; probed := [] |}.

(** ** The probing order, written as a list *)

(** The shapes a walk hands to [_detectEvent] if none of them consumes
    the event: children in reverse insertion order, nothing below a child
    that is not listening. *)
Fixpoint shapesOfChild (child : Node) : list Shape :=
  match child with
  | ShapeNode shape => if listening shape then [shape] else []
  | ContainerNode l cs =>
      if l then concat (rev (map shapesOfChild cs)) else []
  end.

Definition shapesOfChildren (cs : list Node) : list Shape :=
  concat (rev (map shapesOfChild cs)).

Definition shapesOfLayer (layer : Layer) : list Shape :=
  if layerVisible layer && layerListening layer
  then shapesOfChildren (layerChildren layer)
  else [].

(** Layers in reverse insertion order, the topmost first. *)
Definition candidates (ls : list Layer) : list Shape :=
  concat (rev (map shapesOfLayer ls)).

(** First hit wins: the shapes of a list are probed in order until one
    reports the event consumed. *)
Fixpoint firstHit (shapes : list Shape) (w : World) : bool * World :=
  match shapes with
  | [] => (false, w)
  | shape :: rest =>
      let (exit, w) := _detectEvent shape w in
      if exit then (true, w) else firstHit rest w
  end.

(** ** Clamping, one side at a time *)

(** A lower bound, if one is configured. *)
Definition atLeast (bound : option Z) (v : Z) : Z :=
  match bound with
  | Some b => if v <? b then b else v
  | None => v
  end.

(** An upper bound, if one is configured. *)
Definition atMost (bound : option Z) (v : Z) : Z :=
  match bound with
  | Some b => if v >? b then b else v
  | None => v
  end.

(** ** Reading a run *)

Definition isMove (evt : RawEvent) : bool :=
  match etype evt with
  | DomMousemove | DomTouchmove => true
  | _ => false
  end.

(** The clock reading of the last mousemove or touchmove of a run that
    its listener dispatched, [last] if there is none. *)
Fixpoint lastProcessedMove (localPosition : NodeAttrs -> Pos -> Pos)
    (w : World) (evts : list RawEvent) (last : option Z) : option Z :=
  match evts with
  | [] => last
  | evt :: rest =>
      lastProcessedMove localPosition (domEvent localPosition evt w) rest
        (if isMove evt && throttlePassed (stage w) (time evt)
         then Some (time evt) else last)
  end.

(** ** Reading the record of emissions *)

Definition count (name : EventName) (log : list Emission) : Z :=
  Z.of_nat (length (filter (fun e => EventName_eqb (ename e) name) log)).

(** What was emitted between an earlier world and a later one. *)
Definition emittedSince (before after : World) : list Emission :=
  skipn (length (emitted before)) (emitted after).

(** The world after a run of shapes was probed and nothing else done. *)
Definition probeAll (shapes : list Shape) (w : World) : World :=
  fold_left (fun w shape => probe shape w) shapes w.


(** The parts of the world [_detectEvent] never writes. *)
Definition sameSetting (w w' : World) : Prop :=
  attrsOf w' = attrsOf w /\ drag w' = drag w /\
  touchPos (stage w') = touchPos (stage w) /\
  mousePos (stage w') = mousePos (stage w) /\
  children (stage w') = children (stage w) /\
  throttle (stage w') = throttle (stage w) /\
  dblClickWindow (stage w') = dblClickWindow (stage w) /\
  lastEventTime (stage w') = lastEventTime (stage w).

(** The constraint of a node and the coordinate it locks are the same in
    [a'] as in [a]. *)
Definition locked (a a' : NodeAttrs) : Prop :=
  dragConstraint a' = dragConstraint a /\
  (dragConstraint a = horizontal -> y a' = y a) /\
  (dragConstraint a = vertical -> x a' = x a).

(** ** Scenes and events used in the examples *)

Definition within (lo hi : Z) (p : Pos) : bool :=
  (lo <=? px p) && (px p <=? hi).

Definition shapeA : Shape :=
  {| _id := 1; eventListeners := true; listening := true;
     isVisible := true; intersects := within 0 10 |}.

Definition shapeB : Shape :=
  {| _id := 2; eventListeners := true; listening := true;
     isVisible := true; intersects := within 20 30 |}.

(** One layer; [shapeB] was added after [shapeA]. *)
Definition twoShapes : list Layer :=
  [{| layerVisible := true; layerListening := true;
      layerChildren := [ShapeNode shapeA; ShapeNode shapeB] |}].

Definition noBounds : DragBounds :=
  {| left := None; right := None; top := None; bottom := None |}.

Definition plainAttrs (n : nat) : NodeAttrs :=
  {| x := 0; y := 0; dragConstraint := dcNone; dragBounds := noBounds |}.

(** A world in which node 7, at (50, 20) and bound to the horizontal
    axis, was grabbed at its origin; the pointer is at (50, 20). *)
Definition grabbed : World :=
  {| stage := set_mousePos (Some {| px := 50; py := 20 |})
                (newStage 80 twoShapes);
     drag := {| node := Some 7%nat; moving := false;
                offset := {| px := 0; py := 0 |} |};
     attrsOf := fun n =>
       if Nat.eqb n 7
       then {| x := 50; y := 20; dragConstraint := horizontal;
               dragBounds := {| left := Some 10; right := Some 100;
                                top := None; bottom := None |} |}
       else plainAttrs n;
     inDoubleClickWindow := fun _ => false;
     timers := []; emitted := []; probed := [] |}.

(** A node whose ancestors are not transformed: absolute and local
    coordinates agree. *)
Definition untransformed (a : NodeAttrs) (p : Pos) : Pos := p.

Definition mouseEvent (ty : DomEvent) (t : Z) (pos : Pos) : RawEvent :=
  {| etype := ty; time := t; mouseXY := pos; touches := None |}.

(** A mouse event at clock [t] with the pointer at [(px, 0)]. *)
Definition mouseAt (ty : DomEvent) (t px : Z) : RawEvent :=
  mouseEvent ty t {| px := px; py := 0 |}.

(** Three press and release pairs at one place; the releases come at
    [t1], [t2] and [t3]. *)
Definition threeClicks (pos : Pos) (p1 t1 p2 t2 p3 t3 : Z) : list RawEvent :=
  [mouseEvent DomMousedown p1 pos; mouseEvent DomMouseup t1 pos;
   mouseEvent DomMousedown p2 pos; mouseEvent DomMouseup t2 pos;
   mouseEvent DomMousedown p3 pos; mouseEvent DomMouseup t3 pos].

(** ** Reading the record of emissions, continued *)

(** Mouseover emissions minus mouseout emissions. *)
Definition balance (log : list Emission) : Z :=
  count mouseover log - count mouseout log.

(** A mouseover on node [n] is in the record. *)
Definition wasEntered (n : nat) (log : list Emission) : Prop :=
  In {| ename := mouseover; enode := n |} log.

(** Every mouseout of the record comes after a mouseover on the same
    node. *)
Definition exitsFollowEnters (log : list Emission) : Prop :=
  forall pre e post,
    log = pre ++ e :: post -> ename e = mouseout ->
    wasEntered (enode e) pre.

(** The stage state that keeps enters and exits in step: the balance is
    at most one, it is at most zero when neither a target nor a pending
    mouseout shape is stored, and the target has an [eventListeners]
    object. *)
Definition balanced (w : World) : Prop :=
  balance (emitted w) <= 1 /\
  (targetShape (stage w) = None -> mouseoutShape (stage w) = None ->
   balance (emitted w) <= 0) /\
  (forall t, targetShape (stage w) = Some t -> eventListeners t = true).

(** The stored target and the stored mouseout shape were entered, and no
    mouseout was emitted on a node not entered before. *)
Definition tracked (w : World) : Prop :=
  exitsFollowEnters (emitted w) /\
  (forall t, targetShape (stage w) = Some t ->
             wasEntered (_id t) (emitted w)) /\
  (forall o, mouseoutShape (stage w) = Some o ->
             wasEntered (_id o) (emitted w)).

Definition isDragName (name : EventName) : bool :=
  match name with
  | dragstart | dragmove | dragend => true
  | _ => false
  end.



(** A stage on which no move has been dispatched since the last press or
    release, and on which none will be: the rate is zero, so
    [1000 / throttle] is [Infinity]. *)
Definition moveless (w : World) : Prop :=
  throttle (stage w) = 0 /\
  mouseMove (stage w) = false /\ touchMove (stage w) = false.

(** ** The double-click window along a run *)

(** The clock never runs backwards: the events of the list carry clock
    readings in nondecreasing order, none before [t0]. *)
Fixpoint clockFrom (t0 : Z) (evts : list RawEvent) : Prop :=
  match evts with
  | [] => True
  | evt :: rest => t0 <= time evt /\ clockFrom (time evt) rest
  end.

(** Every open window has a pending callback that will close it, no
    callback is due later than [dblClickWindow] after the last dispatch,
    and the last dispatch is not later than [now]. *)
Definition windowsTimed (now : Z) (w : World) : Prop :=
  (forall n, inDoubleClickWindow w n = true ->
             exists t, In t (timers w) /\ tshape t = n) /\
  (forall t, In t (timers w) ->
             due t <= lastEventTime (stage w) + dblClickWindow (stage w)) /\
  lastEventTime (stage w) <= now.

Definition isSingle (name : EventName) : bool :=
  match name with
  | click | tap => true
  | _ => false
  end.

Definition isDouble (name : EventName) : bool :=
  match name with
  | dblclick | dbltap => true
  | _ => false
  end.

(** A click or a tap on node [n] is in the record. *)
Definition wasClicked (n : nat) (log : list Emission) : Prop :=
  exists e, In e log /\ isSingle (ename e) = true /\ enode e = n.

(** Every dblclick or dbltap of the record follows directly a click or
    tap on the same node, which in turn follows an earlier click or tap
    on that node. *)
Definition doublesFollowSingles (log : list Emission) : Prop :=
  forall pre e post,
    log = pre ++ e :: post -> isDouble (ename e) = true ->
    exists before single,
      pre = before ++ [single] /\
      isSingle (ename single) = true /\ enode single = enode e /\
      wasClicked (enode e) before.

(** The record is well formed and every open window belongs to a node
    that was clicked or tapped. *)
Definition windowsEarned (w : World) : Prop :=
  doublesFollowSingles (emitted w) /\
  (forall n, inDoubleClickWindow w n = true -> wasClicked n (emitted w)).

(** ** The id and name registries *)

(** What [_addId], [_removeId], [_addName] and [_removeName] read of a
    node: its [_id], [attrs.id] and [attrs.name]. *)
Record NodeRef := {
  nodeId : nat;
  attrsId : option String.string;
  attrsName : option String.string
}.

(** An object used as a map from strings; a key that was never written
    and a key set to [undefined] both read as [None]. *)
Definition Dict (V : Type) : Type := String.string -> option V.

Definition lookup {V : Type} (d : Dict V) (key : String.string) : option V :=
  d key.

Definition assign {V : Type} (d : Dict V) (key : String.string)
    (v : option V) : Dict V :=
  fun k => if String.eqb k key then v else d k.




(** [nodes.splice(n, 1)]. *)
Definition splice1 (n : nat) (nodes : list NodeRef) : list NodeRef :=
  firstn n nodes ++ skipn (S n) nodes.

(** The loop [for(var n = 0; n < nodes.length; n++)] of [_removeName],
    from index [n] on: the array is spliced while it is walked, and the
    index moves on all the same.  Each turn uses up one unit of [fuel]. *)
Fixpoint removeLoop (fuel : nat) (n : nat) (target : nat)
    (nodes : list NodeRef) : list NodeRef :=
  match fuel with
  | O => nodes
  | S fuel' =>
      if Nat.ltb n (length nodes) then
        match nth_error nodes n with
        | Some no =>
            if Nat.eqb (nodeId no) target
            then removeLoop fuel' (S n) target (splice1 n nodes)
            else removeLoop fuel' (S n) target nodes
        | None => nodes
        end
      else nodes
  end.

(** The loop runs at most once per element. *)
Definition _removeName (node : NodeRef) (names : Dict (list NodeRef))
    : Dict (list NodeRef) :=
  match attrsName node with
  | Some name =>
      match lookup names name with
      | Some nodes =>
          let nodes := removeLoop (length nodes) 0 (nodeId node) nodes in
          assign names name
            (if Nat.eqb (length nodes) 0 then None else Some nodes)
      | None => names
      end
  | None => names
  end.

(** What the loop of [_removeName] leaves of a list: an entry with the
    [_id] looked for is dropped, and the entry after it is kept without
    being looked at. *)
Fixpoint sweep (target : nat) (nodes : list NodeRef) : list NodeRef :=
  match nodes with
  | [] => []
  | no :: rest =>
      if Nat.eqb (nodeId no) target
      then match rest with
           | [] => []
           | kept :: rest' => kept :: sweep target rest'
           end
      else no :: sweep target rest
  end.

(** No two neighbours of the list both carry the [_id]. *)
Fixpoint noNeighbours (target : nat) (nodes : list NodeRef) : Prop :=
  match nodes with
  | a :: ((b :: _) as rest) =>
      ~ (nodeId a = target /\ nodeId b = target) /\ noNeighbours target rest
  | _ => True
  end.

(** * Properties *)

Arguments _detectEvent : simpl never.


(** ** What the handlers leave alone *)

Ltac break_match :=
  repeat (match goal with
          | |- context [if ?b then _ else _] => destruct b eqn:?
          | |- context [match ?o with Some _ => _ | None => _ end] =>
              destruct o eqn:?
          end; simpl).

Lemma sameSetting_refl : forall w, sameSetting w w.
Proof. intro w; repeat split. Qed.

Lemma sameSetting_trans : forall a b c,
  sameSetting a b -> sameSetting b c -> sameSetting a c.
Proof.
  unfold sameSetting; intros a b c H1 H2.
  decompose [and] H1; decompose [and] H2; repeat split; congruence.
Qed.

Lemma _detectEvent_setting : forall shape w,
  sameSetting w (snd (_detectEvent shape w)).
Proof.
  intros shape w.
  unfold _detectEvent, clickOrTap, noDragAndDrop, _isNewTarget, sameSetting.
  break_match; repeat split; reflexivity.
Qed.

Lemma _detectEvent_probed : forall shape w,
  probed (snd (_detectEvent shape w)) = probed w ++ [_id shape].
Proof.
  intros shape w.
  unfold _detectEvent, clickOrTap, noDragAndDrop, _isNewTarget.
  break_match; reflexivity.
Qed.

(** ** The walk is a first-hit search along the probing order *)

Lemma Node_nested_ind : forall P : Node -> Prop,
  (forall shape, P (ShapeNode shape)) ->
  (forall l cs, Forall P cs -> P (ContainerNode l cs)) ->
  forall n, P n.
Proof.
  intros P Hshape Hcont. fix IH 1. intros [shape | l cs].
  - apply Hshape.
  - apply Hcont. induction cs as [| c cs IHcs]; constructor.
    + apply IH.
    + exact IHcs.
Qed.

Lemma traverseChild_container : forall l cs w,
  traverseChild (ContainerNode l cs) w =
  if l then _traverseChildren cs w else (false, w).
Proof. intros [] cs w; reflexivity. Qed.

Lemma firstHit_app : forall l1 l2 w,
  firstHit (l1 ++ l2) w =
  let (exit, w1) := firstHit l1 w in
  if exit then (true, w1) else firstHit l2 w1.
Proof.
  induction l1 as [| shape l1 IH]; intros l2 w; simpl.
  - reflexivity.
  - destruct (_detectEvent shape w) as [[] w1]; [reflexivity | apply IH].
Qed.

Lemma shapesOfChildren_cons : forall c above,
  shapesOfChildren (c :: above) = shapesOfChildren above ++ shapesOfChild c.
Proof.
  intros c above. unfold shapesOfChildren. simpl.
  rewrite concat_app. simpl. now rewrite app_nil_r.
Qed.

Lemma candidates_cons : forall layer above,
  candidates (layer :: above) = candidates above ++ shapesOfLayer layer.
Proof.
  intros layer above. unfold candidates. simpl.
  rewrite concat_app. simpl. now rewrite app_nil_r.
Qed.

Lemma traverseChild_firstHit : forall child w,
  traverseChild child w = firstHit (shapesOfChild child) w.
Proof.
  induction child as [shape | l cs IH] using Node_nested_ind; intro w.
  - simpl. destruct (listening shape); simpl; [| reflexivity].
    destruct (_detectEvent shape w) as [[] w1]; reflexivity.
  - rewrite traverseChild_container. destruct l; [| reflexivity].
    change (shapesOfChild (ContainerNode true cs)) with (shapesOfChildren cs).
    revert w. induction IH as [| c above Hc _ IHabove]; intro w.
    + reflexivity.
    + rewrite shapesOfChildren_cons, firstHit_app. simpl.
      rewrite IHabove.
      destruct (firstHit (shapesOfChildren above) w) as [[] w1];
        [reflexivity | apply Hc].
Qed.

Lemma _traverseChildren_firstHit : forall cs w,
  _traverseChildren cs w = firstHit (shapesOfChildren cs) w.
Proof.
  induction cs as [| c above IH]; intro w.
  - reflexivity.
  - rewrite shapesOfChildren_cons, firstHit_app. simpl. rewrite IH.
    destruct (firstHit (shapesOfChildren above) w) as [[] w1];
      [reflexivity | apply traverseChild_firstHit].
Qed.

Lemma traverseLayers_firstHit : forall ls w,
  traverseLayers ls w = firstHit (candidates ls) w.
Proof.
  induction ls as [| layer above IH]; intro w.
  - reflexivity.
  - rewrite candidates_cons, firstHit_app. simpl. rewrite IH.
    destruct (firstHit (candidates above) w) as [[] w1]; [reflexivity |].
    unfold shapesOfLayer.
    destruct (layerVisible layer && layerListening layer);
      [apply _traverseChildren_firstHit | reflexivity].
Qed.

(** A first-hit search probes a prefix of its list, in order; it stops
    with the shape that consumed the event, or runs the list out. *)
Lemma firstHit_visits : forall shapes w,
  exists visited skipped,
    shapes = visited ++ skipped /\
    probed (snd (firstHit shapes w)) = probed w ++ map _id visited /\
    (fst (firstHit shapes w) = false -> skipped = []) /\
    (fst (firstHit shapes w) = true ->
     exists missed shape w1,
       visited = missed ++ [shape] /\
       firstHit missed w = (false, w1) /\
       fst (_detectEvent shape w1) = true).
Proof.
  induction shapes as [| shape rest IH]; intro w.
  - exists [], []. simpl. rewrite app_nil_r.
    split; [| split; [| split]]; congruence.
  - simpl. pose proof (_detectEvent_probed shape w) as Hp.
    destruct (_detectEvent shape w) as [[] w1] eqn:Hd; simpl in *.
    + exists [shape], rest.
      split; [reflexivity | split; [exact Hp | split; [discriminate |]]].
      intros _. exists [], shape, w. rewrite Hd. repeat split.
    + destruct (IH w1) as (visited & skipped & Heq & Hpr & Hf & Ht).
      exists (shape :: visited), skipped.
      split; [| split; [| split]].
      * simpl. now rewrite Heq.
      * rewrite Hpr, Hp. simpl. now rewrite <- app_assoc.
      * exact Hf.
      * intro Hc. destruct (Ht Hc) as (missed & s & w2 & Hv & Hm & Hs).
        exists (shape :: missed), s, w2. repeat split.
        -- simpl. now rewrite Hv.
        -- simpl. rewrite Hd. exact Hm.
        -- exact Hs.
Qed.

(** C4. The dispatch of one event is a first-hit search: the layers are
    taken in reverse insertion order, the children of a layer or group
    last-added first, nothing below a node that is not listening is
    probed, and the shapes probed are a prefix of that order ending with
    the first shape that reports the event consumed; what follows it, in
    the same layer or in a lower one, is not probed. *)
Theorem C4_first_hit_wins : forall ls w,
  traverseLayers ls w = firstHit (candidates ls) w /\
  candidates ls = concat (rev (map shapesOfLayer ls)) /\
  (forall cs, shapesOfChildren cs = concat (rev (map shapesOfChild cs))) /\
  (forall shape, shapesOfChild (ShapeNode shape) =
                 if listening shape then [shape] else []) /\
  (forall cs, shapesOfChild (ContainerNode false cs) = []) /\
  (forall cs, shapesOfChild (ContainerNode true cs) = shapesOfChildren cs) /\
  exists visited skipped,
    candidates ls = visited ++ skipped /\
    probed (snd (traverseLayers ls w)) = probed w ++ map _id visited /\
    (fst (traverseLayers ls w) = false -> skipped = []) /\
    (fst (traverseLayers ls w) = true ->
     exists missed shape w1,
       visited = missed ++ [shape] /\
       firstHit missed w = (false, w1) /\
       fst (_detectEvent shape w1) = true).
Proof.
  intros ls w. rewrite traverseLayers_firstHit.
  repeat split; try reflexivity. apply firstHit_visits.
Qed.

(** ** A shape the pointer is not on *)

Lemma hit_false : forall shape pos,
  isVisible shape = false \/ pos = None \/
  (exists p, pos = Some p /\ intersects shape p = false) ->
  hit shape pos = false.
Proof.
  intros shape pos [Hv | [Hp | (p & Hp & Hi)]]; unfold hit.
  - now rewrite Hv.
  - rewrite Hp. apply andb_false_r.
  - rewrite Hp, Hi. apply andb_false_r.
Qed.

(** The tracked target, missed while nothing is being dragged. *)
Lemma _detectEvent_target_missed : forall shape target w,
  targetShape (stage w) = Some target ->
  _id target = _id shape ->
  moving (drag w) = false ->
  hit shape (getUserPosition (stage w)) = false ->
  _detectEvent shape w =
  (true, onStage (set_mouseoutShape (Some shape))
           (onStage (_setTarget None)
              (onStage (set_targetFound true) (probe shape w)))).
Proof.
  intros shape target w Ht Hid Hm Hh. unfold _detectEvent. simpl.
  rewrite Ht, <- Hid, Nat.eqb_refl. simpl. rewrite Hh, Hm, Ht. simpl.
  now rewrite Nat.eqb_refl.
Qed.

(** Any other shape that is missed is only probed. *)
Lemma _detectEvent_other_missed : forall shape w,
  match targetShape (stage w) with
  | Some target => _id target <> _id shape
  | None => True
  end ->
  hit shape (getUserPosition (stage w)) = false ->
  _detectEvent shape w = (false, probe shape w).
Proof.
  intros shape w Ht Hh. unfold _detectEvent. simpl.
  destruct (targetShape (stage w)) as [target |] eqn:Et.
  - assert (Hne : Nat.eqb (_id shape) (_id target) = false)
      by (apply Nat.eqb_neq; congruence).
    assert (Hne' : Nat.eqb (_id target) (_id shape) = false)
      by (apply Nat.eqb_neq; congruence).
    rewrite Hne. simpl. rewrite Hh, Et, Hne'. now rewrite andb_false_r.
  - simpl. rewrite Hh, Et. now rewrite andb_false_r.
Qed.

Lemma probeAll_stage : forall shapes w, stage (probeAll shapes w) = stage w.
Proof. induction shapes; intro w; simpl; [| rewrite IHshapes]; reflexivity. Qed.

Lemma probeAll_drag : forall shapes w, drag (probeAll shapes w) = drag w.
Proof. induction shapes; intro w; simpl; [| rewrite IHshapes]; reflexivity. Qed.

Lemma probeAll_emitted : forall shapes w,
  emitted (probeAll shapes w) = emitted w.
Proof. induction shapes; intro w; simpl; [| rewrite IHshapes]; reflexivity. Qed.

Lemma probeAll_probed : forall shapes w,
  probed (probeAll shapes w) = probed w ++ map _id shapes.
Proof.
  induction shapes as [| s shapes IH]; intro w; simpl.
  - now rewrite app_nil_r.
  - rewrite IH. simpl. now rewrite <- app_assoc.
Qed.

Lemma firstHit_all_missed : forall shapes w,
  (forall s, In s shapes ->
     hit s (getUserPosition (stage w)) = false /\
     match targetShape (stage w) with
     | Some target => _id target <> _id s
     | None => True
     end) ->
  firstHit shapes w = (false, probeAll shapes w).
Proof.
  induction shapes as [| s shapes IH]; intros w H; simpl.
  - reflexivity.
  - destruct (H s (or_introl eq_refl)) as [Hh Ht].
    rewrite (_detectEvent_other_missed s w Ht Hh).
    apply IH. intros s' Hin. simpl. apply H. now right.
Qed.

(** C10. When [_detectEvent] is called on the tracked target and the
    shape is not visible, or no user position is known, or the position
    is not inside the shape, and no drag is moving, the call clears the
    tracked target, stores the shape as the pending mouseout shape and
    answers [true]; it emits nothing itself. *)
Theorem C10_missed_target_is_pending_exit : forall shape target w,
  targetShape (stage w) = Some target ->
  _id target = _id shape ->
  moving (drag w) = false ->
  (isVisible shape = false \/
   getUserPosition (stage w) = None \/
   exists p, getUserPosition (stage w) = Some p /\
             intersects shape p = false) ->
  exists w',
    _detectEvent shape w = (true, w') /\
    targetShape (stage w') = None /\
    mouseoutShape (stage w') = Some shape /\
    emitted w' = emitted w.
Proof.
  intros shape target w Ht Hid Hm Hmiss.
  eexists. split.
  - apply (_detectEvent_target_missed shape target w Ht Hid Hm).
    now apply hit_false.
  - repeat split.
Qed.

Lemma recordEvent_stage_frame : forall evt w,
  targetShape (stage (recordEvent evt w)) = targetShape (stage w) /\
  mouseoutShape (stage (recordEvent evt w)) = mouseoutShape (stage w) /\
  children (stage (recordEvent evt w)) = children (stage w) /\
  drag (recordEvent evt w) = drag w /\
  emitted (recordEvent evt w) = emitted w /\
  probed (recordEvent evt w) = probed w.
Proof.
  intros evt w. unfold recordEvent, _setTouchPosition.
  destruct (touches evt) as [[| t [| t' ts]] |]; repeat split.
Qed.

(** C3 (amended). When the walk reaches the tracked target (every shape
    probed before it is missed), the pointer is not on the target and no
    drag is moving, the dispatch of that raw event clears the tracked
    target, stores the shape as the pending mouseout shape, probes nothing
    further and emits nothing: no mouseout is emitted while that raw event
    is handled.  The mouseout is emitted by a later dispatch; the next
    dispatch in which no shape is hit emits it, last, and clears the
    pending shape. *)
Theorem C3_exit_is_deferred : forall evt w target missed shape below,
  targetShape (stage w) = Some target ->
  _id target = _id shape ->
  moving (drag w) = false ->
  candidates (children (stage w)) = missed ++ shape :: below ->
  (forall s, In s missed ->
     hit s (getUserPosition (stage (recordEvent evt w))) = false /\
     _id s <> _id shape) ->
  hit shape (getUserPosition (stage (recordEvent evt w))) = false ->
  fst (traverseLayers (children (stage w)) (recordEvent evt w)) = true /\
  emitted (_handleStageEvent evt w) = emitted w /\
  targetShape (stage (_handleStageEvent evt w)) = None /\
  mouseoutShape (stage (_handleStageEvent evt w)) = Some shape /\
  probed (_handleStageEvent evt w) =
    probed w ++ map _id missed ++ [_id shape] /\
  forall evt2,
    (forall s, In s (candidates (children (stage w))) ->
       hit s (getUserPosition
                (stage (recordEvent evt2 (_handleStageEvent evt w))))
       = false) ->
    emitted (_handleStageEvent evt2 (_handleStageEvent evt w)) =
      emitted w ++ [{| ename := mouseout; enode := _id shape |}] /\
    mouseoutShape (stage (_handleStageEvent evt2 (_handleStageEvent evt w)))
      = None.
Proof.
  intros evt w target missed shape below Ht Hid Hm Hc Hmissed Hshape.
  destruct (recordEvent_stage_frame evt w)
    as (Rt & Ro & Rc & Rd & Re & Rp).
  assert (Hwalk : traverseLayers (children (stage w)) (recordEvent evt w) =
    (true, onStage (set_mouseoutShape (Some shape))
             (onStage (_setTarget None)
                (onStage (set_targetFound true)
                   (probe shape (probeAll missed (recordEvent evt w))))))).
  { rewrite traverseLayers_firstHit, Hc, firstHit_app.
    rewrite firstHit_all_missed.
    - simpl.
      rewrite (_detectEvent_target_missed shape target); try assumption.
      + reflexivity.
      + now rewrite probeAll_stage, Rt.
      + now rewrite probeAll_drag, Rd.
      + now rewrite probeAll_stage.
    - intros s Hin. destruct (Hmissed s Hin) as [Hh Hne].
      split; [exact Hh |]. rewrite Rt, Ht. congruence. }
  assert (Hw1 : _handleStageEvent evt w =
    onStage (set_mouseoutShape (Some shape))
      (onStage (_setTarget None)
         (onStage (set_targetFound true)
            (probe shape (probeAll missed (recordEvent evt w)))))).
  { unfold _handleStageEvent. rewrite Rc, Hwalk. reflexivity. }
  split; [now rewrite Hwalk |].
  split; [rewrite Hw1; simpl; now rewrite probeAll_emitted |].
  split; [now rewrite Hw1 |].
  split; [now rewrite Hw1 |].
  split.
  { rewrite Hw1. simpl. rewrite probeAll_probed, Rp.
    now rewrite <- app_assoc. }
  intros evt2 Hnone.
  set (w1 := _handleStageEvent evt w) in *.
  destruct (recordEvent_stage_frame evt2 w1)
    as (Rt2 & Ro2 & Rc2 & Rd2 & Re2 & Rp2).
  assert (Hc1 : children (stage w1) = children (stage w)).
  { subst w1. rewrite Hw1. simpl. now rewrite probeAll_stage. }
  assert (Ht1 : targetShape (stage w1) = None)
    by (subst w1; now rewrite Hw1).
  assert (Ho1 : mouseoutShape (stage w1) = Some shape)
    by (subst w1; now rewrite Hw1).
  assert (He1 : emitted w1 = emitted w).
  { subst w1. rewrite Hw1. simpl. now rewrite probeAll_emitted. }
  unfold _handleStageEvent.
  rewrite Rc2, Hc1, traverseLayers_firstHit, firstHit_all_missed.
  - simpl. rewrite probeAll_stage, Ro2, Ho1. simpl.
    rewrite probeAll_emitted, Re2, He1. split; reflexivity.
  - intros s Hin. split; [now apply Hnone |]. now rewrite Rt2, Ht1.
Qed.

Lemma C3_counterexample :
  targetShape
    (stage (run untransformed (newWorld 80 twoShapes plainAttrs)
              [mouseAt DomMousemove 1000 5])) = Some shapeA /\
  intersects shapeA (mouseXY (mouseAt DomMousemove 2000 50)) = false /\
  emittedSince
    (run untransformed (newWorld 80 twoShapes plainAttrs)
       [mouseAt DomMousemove 1000 5])
    (run untransformed (newWorld 80 twoShapes plainAttrs)
       [mouseAt DomMousemove 1000 5; mouseAt DomMousemove 2000 50]) = [].
Proof. repeat split. Qed.

Lemma C3_witness :
  emitted
    (_handleStageEvent (mouseAt DomMousemove 2000 50)
       (run untransformed (newWorld 80 twoShapes plainAttrs)
          [mouseAt DomMousemove 1000 5])) =
  [{| ename := mouseover; enode := 1 |}] /\
  emitted
    (_handleStageEvent (mouseAt DomMousemove 3000 50)
       (_handleStageEvent (mouseAt DomMousemove 2000 50)
          (run untransformed (newWorld 80 twoShapes plainAttrs)
             [mouseAt DomMousemove 1000 5]))) =
  [{| ename := mouseover; enode := 1 |};
   {| ename := mouseout; enode := 1 |}].
Proof.
  destruct (C3_exit_is_deferred (mouseAt DomMousemove 2000 50)
              (run untransformed (newWorld 80 twoShapes plainAttrs)
                 [mouseAt DomMousemove 1000 5])
              shapeA [shapeB] shapeA [])
    as (_ & He & _ & _ & _ & Hnext).
  - reflexivity.
  - reflexivity.
  - reflexivity.
  - reflexivity.
  - intros s [<- | []]. split; [reflexivity | discriminate].
  - reflexivity.
  - split; [exact He |].
    apply (Hnext (mouseAt DomMousemove 3000 50)).
    intros s [<- | [<- | []]]; reflexivity.
Defined.

(** ** Press, release and click *)




(** ** The double-click window *)










(** ** Throttling *)

Lemma firstHit_setting : forall shapes w,
  sameSetting w (snd (firstHit shapes w)).
Proof.
  induction shapes as [| shape rest IH]; intro w; simpl.
  - apply sameSetting_refl.
  - pose proof (_detectEvent_setting shape w) as Hs.
    destruct (_detectEvent shape w) as [[] w1]; simpl in *.
    + exact Hs.
    + eapply sameSetting_trans; [exact Hs | apply IH].
Qed.

Lemma recordEvent_setting : forall evt w,
  attrsOf (recordEvent evt w) = attrsOf w /\
  drag (recordEvent evt w) = drag w /\
  children (stage (recordEvent evt w)) = children (stage w) /\
  throttle (stage (recordEvent evt w)) = throttle (stage w) /\
  dblClickWindow (stage (recordEvent evt w)) = dblClickWindow (stage w) /\
  lastEventTime (stage (recordEvent evt w)) = time evt /\
  touchPos (stage (recordEvent evt w)) =
    match touches evt with
    | Some [touch] => Some touch
    | _ => touchPos (stage w)
    end.
Proof.
  intros evt w. unfold recordEvent, _setTouchPosition.
  destruct (touches evt) as [[| t [| t' ts]] |]; repeat split.
Qed.

(** What a dispatch leaves alone, and the clock it records. *)
Lemma _handleStageEvent_setting : forall evt w,
  attrsOf (_handleStageEvent evt w) = attrsOf w /\
  drag (_handleStageEvent evt w) = drag w /\
  children (stage (_handleStageEvent evt w)) = children (stage w) /\
  throttle (stage (_handleStageEvent evt w)) = throttle (stage w) /\
  dblClickWindow (stage (_handleStageEvent evt w)) =
    dblClickWindow (stage w) /\
  lastEventTime (stage (_handleStageEvent evt w)) = time evt /\
  touchPos (stage (_handleStageEvent evt w)) =
    match touches evt with
    | Some [touch] => Some touch
    | _ => touchPos (stage w)
    end.
Proof.
  intros evt w. unfold _handleStageEvent.
  destruct (recordEvent_setting evt w) as (Ra & Rd & Rc & Rt & Rw & Rl & Rp).
  rewrite traverseLayers_firstHit.
  pose proof (firstHit_setting
                (candidates (children (stage (recordEvent evt w))))
                (recordEvent evt w)) as Hs.
  destruct (firstHit _ (recordEvent evt w)) as [detected w1].
  destruct Hs as (Ha & Hd & Hp & _ & Hc & Ht & Hw & Hl). simpl in *.
  assert (Hgoal :
    attrsOf w1 = attrsOf w /\ drag w1 = drag w /\
    children (stage w1) = children (stage w) /\
    throttle (stage w1) = throttle (stage w) /\
    dblClickWindow (stage w1) = dblClickWindow (stage w) /\
    lastEventTime (stage w1) = time evt /\
    touchPos (stage w1) =
      match touches evt with
      | Some [touch] => Some touch
      | _ => touchPos (stage w)
      end)
    by (repeat split; congruence).
  destruct detected; simpl; [exact Hgoal |].
  destruct (mouseoutShape (stage w1)); simpl; exact Hgoal.
Qed.

(** C6 (amended).  With a positive rate, the mousemove or touchmove
    listener dispatches the event exactly when the time since the last
    dispatched stage event, of whatever kind, is at least
    [1000 / throttle] milliseconds.  Otherwise the listener returns the
    world as it got it: no position is recorded, no shape probed, nothing
    emitted.  Every dispatch, for a move or for any other event, sets
    [lastEventTime] to its own clock reading. *)
Theorem C6_throttle_counts_from_the_last_dispatch : forall evt w,
  etype evt = DomMousemove \/ etype evt = DomTouchmove ->
  0 < throttle (stage w) ->
  (throttlePassed (stage w) (time evt) = true <->
   1000 <= (time evt - lastEventTime (stage w)) * throttle (stage w)) /\
  (throttlePassed (stage w) (time evt) = false -> _listen evt w = w) /\
  (throttlePassed (stage w) (time evt) = true ->
   _listen evt w =
   _handleStageEvent evt
     (onStage (match etype evt with
               | DomTouchmove => setTouchFlags false false true
               | _ => setMouseFlags false false true
               end) w)) /\
  (forall evt' w', lastEventTime (stage (_handleStageEvent evt' w')) =
                   time evt').
Proof.
  intros evt w Hmove Hrate.
  split; [| split; [| split]].
  - unfold throttlePassed.
    destruct (Z.compare_spec (throttle (stage w)) 0); lia.
  - intro Hdrop.
    destruct Hmove as [He | He]; unfold _listen; rewrite He;
      [unfold onMousemove | unfold onTouchmove]; now rewrite Hdrop.
  - intro Hpass.
    destruct Hmove as [He | He]; unfold _listen; rewrite He;
      [unfold onMousemove | unfold onTouchmove]; now rewrite Hpass.
  - intros evt' w'. apply _handleStageEvent_setting.
Qed.

Lemma C6_counterexample :
  lastProcessedMove untransformed (newWorld 80 twoShapes plainAttrs)
    [mouseAt DomMousemove 100000 5; mouseAt DomMousedown 101000 5] None =
    Some 100000 /\
  1000 < (101005 - 100000) * 80 /\
  throttlePassed
    (stage (run untransformed (newWorld 80 twoShapes plainAttrs)
              [mouseAt DomMousemove 100000 5; mouseAt DomMousedown 101000 5]))
    101005 = false /\
  emittedSince
    (run untransformed (newWorld 80 twoShapes plainAttrs)
       [mouseAt DomMousemove 100000 5; mouseAt DomMousedown 101000 5])
    (run untransformed (newWorld 80 twoShapes plainAttrs)
       [mouseAt DomMousemove 100000 5; mouseAt DomMousedown 101000 5;
        mouseAt DomMousemove 101005 5]) = [] /\
  lastProcessedMove untransformed (newWorld 100 twoShapes plainAttrs)
    [mouseAt DomMousemove 100000 5] None = Some 100000 /\
  ~ 1000 < (100010 - 100000) * 100 /\
  throttlePassed
    (stage (run untransformed (newWorld 100 twoShapes plainAttrs)
              [mouseAt DomMousemove 100000 5]))
    100010 = true.
Proof. repeat split; try reflexivity; lia. Qed.

Lemma C6_witness :
  _listen (mouseAt DomMousemove 101005 5)
    (run untransformed (newWorld 80 twoShapes plainAttrs)
       [mouseAt DomMousemove 100000 5; mouseAt DomMousedown 101000 5]) =
  run untransformed (newWorld 80 twoShapes plainAttrs)
    [mouseAt DomMousemove 100000 5; mouseAt DomMousedown 101000 5].
Proof.
  apply (C6_throttle_counts_from_the_last_dispatch
           (mouseAt DomMousemove 101005 5)
           (run untransformed (newWorld 80 twoShapes plainAttrs)
              [mouseAt DomMousemove 100000 5; mouseAt DomMousedown 101000 5])).
  - left; reflexivity.
  - reflexivity.
  - reflexivity.
Defined.

(** ** Entering and leaving *)

(** A change of target: the mouseout of the old target is emitted just
    before the mouseover of the new one. *)
Lemma hover_enter_after_exit : forall shape old w,
  hit shape (getUserPosition (stage w)) = true ->
  moving (drag w) = false ->
  mouseDown (stage w) = false -> mouseUp (stage w) = false ->
  touchStart (stage w) = false -> touchEnd (stage w) = false ->
  targetShape (stage w) = Some old -> targetFound (stage w) = false ->
  _id shape <> _id old -> eventListeners old = true ->
  exists w',
    _detectEvent shape w = (true, w') /\
    targetShape (stage w') = Some shape /\
    emitted w' =
      emitted w ++ [{| ename := mouseout; enode := _id old |};
                    {| ename := mouseover; enode := _id shape |}].
Proof.
  intros shape old w Hh Hm Hd Hu Hs He Ht Hf Hne Hl.
  apply Nat.eqb_neq in Hne.
  unfold _detectEvent, _isNewTarget. simpl.
  rewrite Hh, Ht, Hne. simpl. rewrite Hm, Hd, Hu, Hs, He, Ht, Hf, Hne, Hl.
  simpl. eexists. split; [reflexivity |]. split; [reflexivity |].
  simpl. now rewrite <- app_assoc.
Qed.

(** C1.  The number of mouseover emissions minus the number of mouseout
    emissions can fall to -1.  Enter [shapeA]; move on to [shapeB] (the
    mouseout of [shapeA] comes before the mouseover of [shapeB], but
    [mouseoutShape] keeps [shapeA]); leave the content element (mouseout
    of [shapeB]); come back over no shape: the mouseout of [shapeA] is
    emitted a second time. *)
Theorem C1_stale_mouseout_is_emitted_again :
  emitted
    (run untransformed (newWorld 80 twoShapes plainAttrs)
       [mouseAt DomMousemove 1000 5; mouseAt DomMousemove 2000 25;
        mouseAt DomMouseout 3000 25; mouseAt DomMouseover 4000 50]) =
  [{| ename := mouseover; enode := 1 |};
   {| ename := mouseout; enode := 1 |};
   {| ename := mouseover; enode := 2 |};
   {| ename := mouseout; enode := 2 |};
   {| ename := mouseout; enode := 1 |}] /\
  mouseoutShape
    (stage (run untransformed (newWorld 80 twoShapes plainAttrs)
              [mouseAt DomMousemove 1000 5; mouseAt DomMousemove 2000 25])) =
  Some shapeA /\
  count mouseover
    (emitted
       (run untransformed (newWorld 80 twoShapes plainAttrs)
          [mouseAt DomMousemove 1000 5; mouseAt DomMousemove 2000 25;
           mouseAt DomMouseout 3000 25; mouseAt DomMouseover 4000 50])) -
  count mouseout
    (emitted
       (run untransformed (newWorld 80 twoShapes plainAttrs)
          [mouseAt DomMousemove 1000 5; mouseAt DomMousemove 2000 25;
           mouseAt DomMouseout 3000 25; mouseAt DomMouseover 4000 50])) =
  -1.
Proof. repeat split. Qed.

(** ** Drag and drop *)

Lemma dragNode_constraint : forall localPosition offset pos a,
  dragConstraint (dragNode localPosition offset pos a) = dragConstraint a /\
  dragBounds (dragNode localPosition offset pos a) = dragBounds a /\
  (dragConstraint a = horizontal ->
   y (dragNode localPosition offset pos a) = y a) /\
  (dragConstraint a = vertical ->
   x (dragNode localPosition offset pos a) = x a).
Proof.
  intros lp offset pos a. unfold dragNode, constraintOverrides.
  destruct (dragConstraint a) eqn:E; simpl; rewrite ?E;
    repeat split; congruence.
Qed.

Lemma locked_refl : forall a, locked a a.
Proof. intro a; repeat split. Qed.

Lemma locked_trans : forall a b c, locked a b -> locked b c -> locked a c.
Proof.
  unfold locked. intros a b c (H1 & H2 & H3) (H4 & H5 & H6).
  repeat split.
  - congruence.
  - intro H. rewrite H5, H2; congruence.
  - intro H. rewrite H6, H3; congruence.
Qed.

Lemma _listen_setting : forall evt w,
  attrsOf (_listen evt w) = attrsOf w /\
  drag (_listen evt w) = drag w /\
  (touchPos (stage (_listen evt w)) = touchPos (stage w) \/
   exists touch, touches evt = Some [touch] /\
                 touchPos (stage (_listen evt w)) = Some touch).
Proof.
  intros evt w.
  assert (Hd : forall w0, touchPos (stage w0) = touchPos (stage w) ->
    attrsOf w0 = attrsOf w -> drag w0 = drag w ->
    attrsOf (_handleStageEvent evt w0) = attrsOf w /\
    drag (_handleStageEvent evt w0) = drag w /\
    (touchPos (stage (_handleStageEvent evt w0)) = touchPos (stage w) \/
     exists touch, touches evt = Some [touch] /\
       touchPos (stage (_handleStageEvent evt w0)) = Some touch)).
  { intros w0 Hp Ha Hdr.
    destruct (_handleStageEvent_setting evt w0)
      as (Sa & Sd & _ & _ & _ & _ & Sp).
    split; [congruence | split; [congruence |]].
    rewrite Sp.
    destruct (touches evt) as [[| t [| t' ts]] |]; auto.
    right. exists t. split; reflexivity. }
  unfold _listen, onMousedown, onMousemove, onMouseup, onMouseover,
    onMouseout, onTouchstart, onTouchmove, onTouchend.
  destruct (etype evt); simpl;
    try (apply Hd; reflexivity);
    try (destruct (throttlePassed (stage w) (time evt));
         [apply Hd; reflexivity | repeat split; left; reflexivity]).
  destruct (targetShape (stage w)); repeat split; left; reflexivity.
Qed.

Lemma domEvent_locked : forall localPosition evt w n,
  locked (attrsOf w n) (attrsOf (domEvent localPosition evt w) n).
Proof.
  intros lp evt w n. unfold domEvent.
  destruct (_listen_setting evt (runTimers (time evt) w)) as (Ha & _ & _).
  set (w1 := _listen evt (runTimers (time evt) w)) in *.
  change (attrsOf w n) with (attrsOf (runTimers (time evt) w) n).
  rewrite <- Ha. clearbody w1. clear Ha.
  unfold _prepareDrag, onDragMove, _endDrag.
  destruct (etype evt); try apply locked_refl.
  - destruct (node (drag w1)) as [m |]; [| apply locked_refl].
    destruct (getUserPosition (stage w1)) as [pos |]; [| apply locked_refl].
    simpl. destruct (moving (drag w1)); simpl;
      (destruct (Nat.eqb n m) eqn:E; [| apply locked_refl];
       apply Nat.eqb_eq in E; subst m;
       destruct (dragNode_constraint lp (offset (drag w1)) pos
                   (attrsOf w1 n)) as (H1 & _ & H2 & H3);
       repeat split; assumption).
  - destruct (node (drag w1)); [destruct (moving (drag w1)) |];
      apply locked_refl.
  - destruct (node (drag w1)); [destruct (moving (drag w1)) |];
      apply locked_refl.
  - destruct (node (drag w1)) as [m |]; [| apply locked_refl].
    destruct (getUserPosition (stage w1)) as [pos |]; [| apply locked_refl].
    simpl. destruct (moving (drag w1)); simpl;
      (destruct (Nat.eqb n m) eqn:E; [| apply locked_refl];
       apply Nat.eqb_eq in E; subst m;
       destruct (dragNode_constraint lp (offset (drag w1)) pos
                   (attrsOf w1 n)) as (H1 & _ & H2 & H3);
       repeat split; assumption).
  - destruct (node (drag w1)); [destruct (moving (drag w1)) |];
      apply locked_refl.
Qed.

Lemma run_locked : forall localPosition evts w n,
  locked (attrsOf w n) (attrsOf (run localPosition w evts) n).
Proof.
  intros lp evts. induction evts as [| evt rest IH]; intros w n.
  - apply locked_refl.
  - simpl. eapply locked_trans; [apply domEvent_locked | apply IH].
Qed.

(** C7.  A node whose drag constraint is 'horizontal' has the same
    [attrs.y] after any sequence of DOM events, drag moves among them, as
    before it; a node whose constraint is 'vertical' keeps its
    [attrs.x]. *)
Theorem C7_constraint_locks_the_other_axis :
  forall localPosition evts w n,
  (dragConstraint (attrsOf w n) = horizontal ->
   y (attrsOf (run localPosition w evts) n) = y (attrsOf w n)) /\
  (dragConstraint (attrsOf w n) = vertical ->
   x (attrsOf (run localPosition w evts) n) = x (attrsOf w n)).
Proof.
  intros lp evts w n. destruct (run_locked lp evts w n) as (_ & Hy & Hx).
  split; assumption.
Qed.

Lemma C7_witness :
  x (attrsOf (run untransformed grabbed
                [mouseAt DomMousemove 1000 65; mouseAt DomMousemove 2000 500])
       7%nat) = 100 /\
  y (attrsOf (run untransformed grabbed
                [mouseAt DomMousemove 1000 65; mouseAt DomMousemove 2000 500])
       7%nat) = 20.
Proof.
  split.
  - reflexivity.
  - exact (proj1 (C7_constraint_locks_the_other_axis untransformed
                    [mouseAt DomMousemove 1000 65;
                     mouseAt DomMousemove 2000 500] grabbed 7%nat) eq_refl).
Defined.

Lemma boundsOverrides_clamps : forall db p,
  boundsOverrides db p =
  {| px := atMost (right db) (atLeast (left db) (px p));
     py := atMost (bottom db) (atLeast (top db) (py p)) |}.
Proof.
  intros [l r t b] [vx vy]. unfold boundsOverrides, atMost, atLeast.
  cbn [px py left right top bottom].
  destruct l as [l |], r as [r |], t as [t |], b as [b |];
    repeat match goal with
           | H : ?c = _ |- context [if ?c then _ else _] =>
               rewrite H; cbn [px py]
           | |- context [if ?a <? ?b then _ else _] =>
               is_var a; destruct (a <? b) eqn:?; cbn [px py]
           | |- context [if ?a >? ?b then _ else _] =>
               is_var a; destruct (a >? b) eqn:?; cbn [px py]
           end; reflexivity.
Qed.

Lemma onDragMove_attrs : forall localPosition w n pos,
  node (drag w) = Some n ->
  getUserPosition (stage w) = Some pos ->
  attrsOf (onDragMove localPosition w) n =
  dragNode localPosition (offset (drag w)) pos (attrsOf w n).
Proof.
  intros lp w n pos Hn Hp. unfold onDragMove. rewrite Hn, Hp. simpl.
  destruct (moving (drag w)); simpl; now rewrite Nat.eqb_refl.
Qed.

(** C8.  In a drag move the four bounds are applied one by one to the
    position the node would get: left and right to x only, top and bottom
    to y only, a side that is not configured not at all.  With bounds
    [{left: 10, right: 100}] a candidate x of -5 becomes 10 and a
    candidate x of 500 becomes 100, the candidate y being kept; that point
    is handed to [setAbsolutePosition], and for a node without transformed
    ancestors and without the 'vertical' constraint it is the node's new
    [attrs.x]. *)
Theorem C8_each_bound_clamps_its_own_side :
  forall localPosition w n pos,
  node (drag w) = Some n ->
  getUserPosition (stage w) = Some pos ->
  attrsOf (onDragMove localPosition w) n =
    constraintOverrides (dragConstraint (attrsOf w n))
      {| px := x (attrsOf w n); py := y (attrsOf w n) |}
      (setAbsolutePosition localPosition (attrsOf w n)
         {| px := atMost (right (dragBounds (attrsOf w n)))
                    (atLeast (left (dragBounds (attrsOf w n)))
                       (px pos - px (offset (drag w))));
            py := atMost (bottom (dragBounds (attrsOf w n)))
                    (atLeast (top (dragBounds (attrsOf w n)))
                       (py pos - py (offset (drag w)))) |}) /\
  (forall v, atLeast None v = v /\ atMost None v = v) /\
  (dragBounds (attrsOf w n) =
     {| left := Some 10; right := Some 100; top := None; bottom := None |} ->
   (px pos - px (offset (drag w)) = -5 ->
    boundsOverrides (dragBounds (attrsOf w n))
      {| px := px pos - px (offset (drag w));
         py := py pos - py (offset (drag w)) |} =
    {| px := 10; py := py pos - py (offset (drag w)) |} /\
    (dragConstraint (attrsOf w n) <> vertical ->
     x (attrsOf (onDragMove untransformed w) n) = 10)) /\
   (px pos - px (offset (drag w)) = 500 ->
    boundsOverrides (dragBounds (attrsOf w n))
      {| px := px pos - px (offset (drag w));
         py := py pos - py (offset (drag w)) |} =
    {| px := 100; py := py pos - py (offset (drag w)) |} /\
    (dragConstraint (attrsOf w n) <> vertical ->
     x (attrsOf (onDragMove untransformed w) n) = 100))).
Proof.
  intros lp w n pos Hn Hp.
  split; [| split].
  - rewrite (onDragMove_attrs lp w n pos Hn Hp). unfold dragNode.
    now rewrite boundsOverrides_clamps.
  - intro v. split; reflexivity.
  - intro Hb. rewrite (onDragMove_attrs untransformed w n pos Hn Hp).
    unfold dragNode. rewrite boundsOverrides_clamps, Hb. simpl.
    split; intro Hx; rewrite Hx; simpl; (split; [reflexivity |]);
      intro Hc; destruct (dragConstraint (attrsOf w n));
      try reflexivity; congruence.
Qed.

Lemma C8_witness :
  x (attrsOf
       (onDragMove untransformed
          (onStage (set_mousePos (Some {| px := 500; py := 0 |})) grabbed))
       7%nat) = 100.
Proof.
  apply (C8_each_bound_clamps_its_own_side untransformed
           (onStage (set_mousePos (Some {| px := 500; py := 0 |})) grabbed)
           7%nat {| px := 500; py := 0 |} eq_refl eq_refl).
  - reflexivity.
  - reflexivity.
  - discriminate.
Defined.

(** ** The user position *)

Lemma _prepareDrag_stage : forall localPosition evt w,
  stage (_prepareDrag localPosition evt w) = stage w.
Proof.
  intros lp evt w. unfold _prepareDrag, onDragMove, _endDrag.
  destruct (etype evt); try reflexivity;
    destruct (node (drag w)); try reflexivity;
    try (destruct (getUserPosition (stage w)); [| reflexivity]; simpl);
    destruct (moving (drag w)); reflexivity.
Qed.

Lemma domEvent_touchPos : forall localPosition evt w,
  touchPos (stage (domEvent localPosition evt w)) = touchPos (stage w) \/
  exists touch, touches evt = Some [touch] /\
    touchPos (stage (domEvent localPosition evt w)) = Some touch.
Proof.
  intros lp evt w. unfold domEvent. rewrite _prepareDrag_stage.
  destruct (_listen_setting evt (runTimers (time evt) w)) as (_ & _ & H).
  exact H.
Qed.

Lemma run_touchPos : forall localPosition evts w p,
  touchPos (stage w) = Some p ->
  (exists q, touchPos (stage (run localPosition w evts)) = Some q) /\
  (Forall (fun evt => touches evt = None) evts ->
   touchPos (stage (run localPosition w evts)) = Some p).
Proof.
  intros lp evts. induction evts as [| evt rest IH]; intros w p Hp.
  - split; [exists p |]; auto.
  - simpl. destruct (domEvent_touchPos lp evt w) as [Hsame | (t & Ht & Hnew)].
    + rewrite Hp in Hsame. destruct (IH _ _ Hsame) as [He Hm].
      split; [exact He |]. intro Hall. apply Hm. now inversion Hall.
    + destruct (IH _ _ Hnew) as [He _].
      split; [exact He |]. intro Hall. inversion Hall; congruence.
Qed.

(** C9.  [getUserPosition] answers with the touch position whenever one
    is recorded and with the mouse position only otherwise.
    [_setTouchPosition] writes [touchPos] for an event with exactly one
    contact and leaves it alone for every other event.  So once a
    dispatched touch event with one contact has recorded a touch
    position, [getUserPosition] answers with a touch position after every
    further sequence of DOM events, and with that same, stale one as long
    as only mouse events follow. *)
Theorem C9_touch_position_shadows_the_mouse :
  forall localPosition evts w p,
  touchPos (stage w) = Some p ->
  getUserPosition (stage w) = Some p /\
  (forall s, touchPos s = None -> getUserPosition s = mousePos s) /\
  (forall evt s,
     touchPos (_setTouchPosition evt s) =
     match touches evt with
     | Some [touch] => Some touch
     | _ => touchPos s
     end) /\
  (forall evt w0 touch,
     touches evt = Some [touch] ->
     touchPos (stage (_handleStageEvent evt w0)) = Some touch) /\
  (exists q,
     touchPos (stage (run localPosition w evts)) = Some q /\
     getUserPosition (stage (run localPosition w evts)) = Some q) /\
  (Forall (fun evt => touches evt = None) evts ->
   getUserPosition (stage (run localPosition w evts)) = Some p).
Proof.
  intros lp evts w p Hp.
  destruct (run_touchPos lp evts w p Hp) as [(q & Hq) Hmouse].
  split; [| split; [| split; [| split; [| split]]]].
  - unfold getUserPosition, getTouchPosition. now rewrite Hp.
  - intros s Hs. unfold getUserPosition, getTouchPosition. now rewrite Hs.
  - intros evt s. unfold _setTouchPosition.
    destruct (touches evt) as [[| t [| t' ts]] |]; reflexivity.
  - intros evt w0 touch Ht.
    destruct (_handleStageEvent_setting evt w0) as (_ & _ & _ & _ & _ & _ & H).
    now rewrite H, Ht.
  - exists q. split; [exact Hq |].
    unfold getUserPosition, getTouchPosition. now rewrite Hq.
  - intro Hall. unfold getUserPosition, getTouchPosition.
    now rewrite (Hmouse Hall).
Qed.

Lemma C9_witness :
  getUserPosition
    (stage
       (run untransformed
          (domEvent untransformed
             {| etype := DomTouchstart; time := 1000;
                mouseXY := {| px := 0; py := 0 |};
                touches := Some [{| px := 5; py := 5 |}] |}
             (newWorld 80 twoShapes plainAttrs))
          [mouseAt DomMousemove 2000 25; mouseAt DomMousemove 3000 50])) =
  Some {| px := 5; py := 5 |}.
Proof.
  apply (C9_touch_position_shadows_the_mouse untransformed
           [mouseAt DomMousemove 2000 25; mouseAt DomMousemove 3000 50]
           (domEvent untransformed
              {| etype := DomTouchstart; time := 1000;
                 mouseXY := {| px := 0; py := 0 |};
                 touches := Some [{| px := 5; py := 5 |}] |}
              (newWorld 80 twoShapes plainAttrs))
           {| px := 5; py := 5 |} eq_refl).
  repeat constructor.
Defined.

Lemma C10_witness :
  exists w',
    _detectEvent
      {| _id := 1; eventListeners := true; listening := true;
         isVisible := false; intersects := within 0 10 |}
      (recordEvent (mouseAt DomMousemove 2000 5)
         (run untransformed (newWorld 80 twoShapes plainAttrs)
            [mouseAt DomMousemove 1000 5])) = (true, w') /\
    targetShape (stage w') = None /\
    mouseoutShape (stage w') =
      Some {| _id := 1; eventListeners := true; listening := true;
              isVisible := false; intersects := within 0 10 |} /\
    emitted w' = [{| ename := mouseover; enode := 1 |}].
Proof.
  apply (C10_missed_target_is_pending_exit
           {| _id := 1; eventListeners := true; listening := true;
              isVisible := false; intersects := within 0 10 |}
           shapeA
           (recordEvent (mouseAt DomMousemove 2000 5)
              (run untransformed (newWorld 80 twoShapes plainAttrs)
                 [mouseAt DomMousemove 1000 5]))).
  - reflexivity.
  - reflexivity.
  - reflexivity.
  - left. reflexivity.
Defined.

Lemma C4_witness :
  probed
    (snd (traverseLayers twoShapes
            (recordEvent (mouseAt DomMousemove 1000 25)
               (onStage (setMouseFlags false false true)
                  (newWorld 80 twoShapes plainAttrs))))) = [2%nat] /\
  fst (traverseLayers twoShapes
         (recordEvent (mouseAt DomMousemove 1000 25)
            (onStage (setMouseFlags false false true)
               (newWorld 80 twoShapes plainAttrs)))) = true.
Proof.
  destruct (C4_first_hit_wins twoShapes
              (recordEvent (mouseAt DomMousemove 1000 25)
                 (onStage (setMouseFlags false false true)
                    (newWorld 80 twoShapes plainAttrs))))
    as (Heq & _).
  rewrite Heq. split; reflexivity.
Defined.

(** * Further properties *)

(** ** Enters and exits along a run *)

Lemma count_app : forall name l1 l2,
  count name (l1 ++ l2) = count name l1 + count name l2.
Proof.
  intros name l1 l2. unfold count.
  rewrite filter_app, length_app. lia.
Qed.

Lemma balance_snoc : forall log e,
  balance (log ++ [e]) =
  balance log +
  match ename e with
  | mouseover => 1
  | mouseout => -1
  | _ => 0
  end.
Proof.
  intros log [name n]. unfold balance. rewrite !count_app.
  destruct name; simpl; unfold count; simpl; lia.
Qed.

Ltac use_target :=
  repeat match goal with
         | E : targetShape (stage ?w) = _,
           H : context [match targetShape (stage ?w) with _ => _ end] |- _ =>
             rewrite E in H; simpl in H
         end.

Lemma _detectEvent_balanced : forall shape w,
  eventListeners shape = true ->
  balanced w -> balanced (snd (_detectEvent shape w)).
Proof.
  intros shape w Hl H.
  unfold _detectEvent, clickOrTap, noDragAndDrop, _isNewTarget.
  break_match; unfold balanced in *; simpl in *; rewrite ?balance_snoc; simpl;
  destruct H as (Hb & Hz & Ht); use_target;
  (split; [| split]); intros;
  repeat match goal with
         | H : Some _ = Some _ |- _ => inversion H; subst; clear H
         end;
  try congruence; try lia; eauto;
  try (specialize (Hz ltac:(congruence) ltac:(congruence)); lia).
  rewrite (Ht _ Heqo0) in *.
  destruct (negb (targetFound (stage w)) && negb (_id shape =? _id s)%nat);
    simpl in *; [discriminate | rewrite andb_false_r in Heqb4; discriminate].
Qed.

Lemma firstHit_balanced : forall shapes w,
  (forall s, In s shapes -> eventListeners s = true) ->
  balanced w -> balanced (snd (firstHit shapes w)).
Proof.
  induction shapes as [| shape rest IH]; intros w Hall Hw; simpl.
  - exact Hw.
  - pose proof (_detectEvent_balanced shape w (Hall _ (or_introl eq_refl)) Hw)
      as Hs.
    destruct (_detectEvent shape w) as [[] w1]; simpl in *.
    + exact Hs.
    + apply IH; [| exact Hs]. intros s Hin. apply Hall. now right.
Qed.

Lemma recordEvent_balanced : forall evt w,
  balanced w -> balanced (recordEvent evt w).
Proof.
  intros evt w H. unfold balanced, recordEvent, _setTouchPosition in *.
  destruct (touches evt) as [[| t [| t' ts]] |]; exact H.
Qed.

Lemma _handleStageEvent_balanced : forall evt w,
  (forall s, In s (candidates (children (stage w))) ->
             eventListeners s = true) ->
  balanced w -> balanced (_handleStageEvent evt w).
Proof.
  intros evt w Hall Hw. unfold _handleStageEvent.
  destruct (recordEvent_setting evt w) as (_ & _ & Rc & _).
  rewrite traverseLayers_firstHit, Rc.
  pose proof (firstHit_balanced (candidates (children (stage w)))
                (recordEvent evt w) Hall (recordEvent_balanced evt w Hw))
    as Hs.
  destruct (firstHit _ (recordEvent evt w)) as [[] w1]; simpl in *.
  - exact Hs.
  - destruct (mouseoutShape (stage w1)) as [out |] eqn:Eo; [| exact Hs].
    destruct Hs as (Hb & Hz & Ht). unfold balanced. simpl.
    rewrite balance_snoc. simpl. repeat split; intros; try lia; auto.
Qed.


Lemma balanced_ext : forall w w',
  emitted w' = emitted w ->
  targetShape (stage w') = targetShape (stage w) ->
  mouseoutShape (stage w') = mouseoutShape (stage w) ->
  balanced w -> balanced w'.
Proof.
  unfold balanced. intros w w' He Ht Ho H. now rewrite He, Ht, Ho.
Qed.

Lemma _listen_children : forall evt w,
  children (stage (_listen evt w)) = children (stage w).
Proof.
  intros evt w.
  unfold _listen, onMousedown, onMousemove, onMouseup, onMouseover,
    onMouseout, onTouchstart, onTouchmove, onTouchend.
  destruct (etype evt); simpl;
    try (destruct (throttlePassed (stage w) (time evt)); [| reflexivity]);
    try (match goal with
         | |- context [_handleStageEvent evt ?W] =>
             destruct (_handleStageEvent_setting evt W)
               as (_ & _ & Hc & _); rewrite Hc; reflexivity
         end).
  destruct (targetShape (stage w)); reflexivity.
Qed.

Lemma domEvent_children : forall localPosition evt w,
  children (stage (domEvent localPosition evt w)) = children (stage w).
Proof.
  intros lp evt w. unfold domEvent.
  now rewrite _prepareDrag_stage, _listen_children.
Qed.

Lemma _listen_balanced : forall evt w,
  (forall s, In s (candidates (children (stage w))) ->
             eventListeners s = true) ->
  balanced w -> balanced (_listen evt w).
Proof.
  intros evt w Hall Hw.
  assert (Hd : forall f, (forall s, targetShape (f s) = targetShape s) ->
                (forall s, mouseoutShape (f s) = mouseoutShape s) ->
                (forall s, children (f s) = children s) ->
                balanced (_handleStageEvent evt (onStage f w))).
  { intros f Ht Ho Hc. apply _handleStageEvent_balanced.
    - simpl. now rewrite Hc.
    - apply (balanced_ext w); simpl; auto. }
  unfold _listen, onMousedown, onMousemove, onMouseup, onMouseover,
    onMouseout, onTouchstart, onTouchmove, onTouchend.
  destruct (etype evt).
  - apply Hd; reflexivity.
  - destruct (throttlePassed (stage w) (time evt)); [| exact Hw].
    apply Hd; reflexivity.
  - eapply balanced_ext; [| | | apply (Hd (setMouseFlags false true false))];
      reflexivity.
  - now apply _handleStageEvent_balanced.
  - destruct Hw as (Hb & Hz & Ht). unfold balanced.
    destruct (targetShape (stage w)) as [t |] eqn:Et; simpl.
    + rewrite balance_snoc. simpl. repeat split; intros; try lia; congruence.
    + rewrite Et. repeat split; intros; auto; congruence.
  - apply Hd; reflexivity.
  - destruct (throttlePassed (stage w) (time evt)); [| exact Hw].
    apply Hd; reflexivity.
  - eapply balanced_ext; [| | | apply (Hd (setTouchFlags false true false))];
      reflexivity.
Qed.

Lemma _prepareDrag_balanced : forall localPosition evt w,
  balanced w -> balanced (_prepareDrag localPosition evt w).
Proof.
  intros lp evt w (Hb & Hz & Ht). unfold balanced.
  rewrite _prepareDrag_stage. unfold _prepareDrag, onDragMove, _endDrag.
  destruct (etype evt); try (repeat split; assumption);
    destruct (node (drag w)); try (repeat split; assumption);
    try (destruct (getUserPosition (stage w));
         [| repeat split; assumption]; simpl);
    destruct (moving (drag w)); simpl; rewrite ?balance_snoc; simpl;
    rewrite ?Z.add_0_r; repeat split; assumption.
Qed.

Lemma domEvent_balanced : forall localPosition evt w,
  (forall s, In s (candidates (children (stage w))) ->
             eventListeners s = true) ->
  balanced w -> balanced (domEvent localPosition evt w).
Proof.
  intros lp evt w Hall Hw. unfold domEvent.
  apply _prepareDrag_balanced, _listen_balanced; [exact Hall |].
  apply (balanced_ext w); auto.
Qed.

(** X1.  In a scene all of whose shapes have an [eventListeners] object,
    the number of mouseover emissions never exceeds the number of mouseout
    emissions by more than one, whatever DOM events arrive: a second shape
    is never entered while the first has not been left. *)
Theorem X1_at_most_one_shape_is_entered :
  forall localPosition evts w,
  (forall s, In s (candidates (children (stage w))) ->
             eventListeners s = true) ->
  balanced w ->
  balanced (run localPosition w evts) /\
  balance (emitted (run localPosition w evts)) <= 1.
Proof.
  intros lp evts. induction evts as [| evt rest IH]; intros w Hall Hw.
  - split; [exact Hw | apply Hw].
  - simpl. apply IH.
    + now rewrite domEvent_children.
    + now apply domEvent_balanced.
Qed.

Lemma X1_witness :
  balance
    (emitted (run untransformed (newWorld 80 twoShapes plainAttrs)
                [mouseAt DomMousemove 1000 5; mouseAt DomMousemove 2000 25;
                 mouseAt DomMousemove 3000 5])) <= 1.
Proof.
  apply (X1_at_most_one_shape_is_entered untransformed
           [mouseAt DomMousemove 1000 5; mouseAt DomMousemove 2000 25;
            mouseAt DomMousemove 3000 5]
           (newWorld 80 twoShapes plainAttrs)).
  - intros s [<- | [<- | []]]; reflexivity.
  - unfold balanced. simpl. repeat split; try discriminate.
    all: unfold balance, count; simpl; lia.
Defined.

Lemma wasEntered_app : forall n l l',
  wasEntered n l -> wasEntered n (l ++ l').
Proof. unfold wasEntered. intros. apply in_or_app. now left. Qed.

Lemma wasEntered_here : forall n l,
  wasEntered n (l ++ [{| ename := mouseover; enode := n |}]).
Proof. unfold wasEntered. intros. apply in_or_app. right. now left. Qed.

Lemma exitsFollowEnters_snoc : forall log e,
  exitsFollowEnters log ->
  (ename e = mouseout -> wasEntered (enode e) log) ->
  exitsFollowEnters (log ++ [e]).
Proof.
  unfold exitsFollowEnters. intros log e Hlog He pre e0 post Heq Hout.
  destruct (exists_last (l := e0 :: post)) as (mid & lst & Hmid);
    [discriminate |].
  rewrite Hmid, app_assoc in Heq. apply app_inj_tail in Heq.
  destruct Heq as [Hl Hlast]. subst lst.
  destruct mid as [| e1 mid].
  - simpl in Hmid. inversion Hmid; subst.
    rewrite app_nil_r in *. now apply He.
  - inversion Hmid; subst. now apply (Hlog pre e1 mid).
Qed.

Lemma _isNewTarget_tracked : forall shape s log,
  (forall t, targetShape s = Some t -> wasEntered (_id t) log) ->
  (forall o, mouseoutShape s = Some o -> wasEntered (_id o) log) ->
  targetShape (snd (_isNewTarget shape s)) = targetShape s /\
  (forall o, mouseoutShape (snd (_isNewTarget shape s)) = Some o ->
             wasEntered (_id o) log).
Proof.
  intros shape s log Ht Ho. unfold _isNewTarget.
  destruct (targetShape s) as [t |] eqn:Et; simpl; [| now rewrite Et].
  destruct (negb (targetFound s) && negb (Nat.eqb (_id shape) (_id t)));
    simpl; [| now rewrite Et].
  destruct (eventListeners t); simpl; rewrite Et; split; auto.
Qed.

Ltac entered :=
  repeat first [ apply wasEntered_here | apply wasEntered_app ]; eauto.

Lemma _detectEvent_tracked : forall shape w,
  tracked w -> tracked (snd (_detectEvent shape w)).
Proof.
  intros shape w H.
  unfold _detectEvent, clickOrTap, noDragAndDrop.
  break_match; simpl in *; destruct H as (He & Ht & Ho);
  destruct (_isNewTarget_tracked shape (stage w) (emitted w) Ht Ho)
    as (Nt & No);
  destruct (_isNewTarget_tracked shape (set_targetFound true (stage w))
              (emitted w) Ht Ho) as (Nt' & No');
  unfold tracked; simpl in *;
  (split;
   [ repeat apply exitsFollowEnters_snoc; try assumption;
     simpl; intros; try discriminate; entered
   | split; intros t0 E0; try (inversion E0; subst; clear E0); entered ]).
  all: apply andb_prop in Heqb0; destruct Heqb0 as [_ Hid];
    destruct (targetShape (stage w)) as [tg |]; [| discriminate];
    apply Nat.eqb_eq in Hid; rewrite <- Hid; now apply Ht.
Qed.

Lemma firstHit_tracked : forall shapes w,
  tracked w -> tracked (snd (firstHit shapes w)).
Proof.
  induction shapes as [| shape rest IH]; intros w Hw; simpl.
  - exact Hw.
  - pose proof (_detectEvent_tracked shape w Hw) as Hs.
    destruct (_detectEvent shape w) as [[] w1]; simpl in *; auto.
Qed.

Lemma tracked_ext : forall w w',
  emitted w' = emitted w ->
  targetShape (stage w') = targetShape (stage w) ->
  mouseoutShape (stage w') = mouseoutShape (stage w) ->
  tracked w -> tracked w'.
Proof.
  unfold tracked. intros w w' He Ht Ho H. now rewrite He, Ht, Ho.
Qed.

Lemma _handleStageEvent_tracked : forall evt w,
  tracked w -> tracked (_handleStageEvent evt w).
Proof.
  intros evt w Hw. unfold _handleStageEvent.
  rewrite traverseLayers_firstHit.
  assert (Hr : tracked (recordEvent evt w)).
  { destruct (recordEvent_stage_frame evt w) as (Rt & Ro & _ & _ & Re & _).
    now apply (tracked_ext w). }
  pose proof (firstHit_tracked
                (candidates (children (stage (recordEvent evt w))))
                (recordEvent evt w) Hr) as Hs.
  destruct (firstHit _ (recordEvent evt w)) as [[] w1]; simpl in *.
  - exact Hs.
  - destruct (mouseoutShape (stage w1)) as [out |] eqn:Eo; [| exact Hs].
    destruct Hs as (He & Ht & Ho). unfold tracked. simpl.
    split; [| split].
    + apply exitsFollowEnters_snoc; [assumption | simpl; intros; auto].
    + intros t E. apply wasEntered_app. auto.
    + discriminate.
Qed.

Lemma _listen_tracked : forall evt w,
  tracked w -> tracked (_listen evt w).
Proof.
  intros evt w Hw.
  assert (Hd : forall f, (forall s, targetShape (f s) = targetShape s) ->
                (forall s, mouseoutShape (f s) = mouseoutShape s) ->
                tracked (_handleStageEvent evt (onStage f w))).
  { intros f Ht Ho. apply _handleStageEvent_tracked.
    apply (tracked_ext w); simpl; auto. }
  unfold _listen, onMousedown, onMousemove, onMouseup, onMouseover,
    onMouseout, onTouchstart, onTouchmove, onTouchend.
  destruct (etype evt).
  - apply Hd; reflexivity.
  - destruct (throttlePassed (stage w) (time evt)); [| exact Hw].
    apply Hd; reflexivity.
  - eapply tracked_ext; [| | | apply (Hd (setMouseFlags false true false))];
      reflexivity.
  - now apply _handleStageEvent_tracked.
  - destruct Hw as (He & Ht & Ho). unfold tracked.
    destruct (targetShape (stage w)) as [t |] eqn:Et; simpl.
    + split; [| split].
      * apply exitsFollowEnters_snoc; [assumption | simpl; intros; auto].
      * discriminate.
      * intros o E. apply wasEntered_app. auto.
    + rewrite Et. split; [| split]; auto.
  - apply Hd; reflexivity.
  - destruct (throttlePassed (stage w) (time evt)); [| exact Hw].
    apply Hd; reflexivity.
  - eapply tracked_ext; [| | | apply (Hd (setTouchFlags false true false))];
      reflexivity.
Qed.

Lemma _prepareDrag_tracked : forall localPosition evt w,
  tracked w -> tracked (_prepareDrag localPosition evt w).
Proof.
  intros lp evt w (He & Ht & Ho). unfold tracked.
  rewrite _prepareDrag_stage. unfold _prepareDrag, onDragMove, _endDrag.
  destruct (etype evt); try (repeat split; assumption);
    destruct (node (drag w)); try (repeat split; assumption);
    try (destruct (getUserPosition (stage w));
         [| repeat split; assumption]; simpl);
    destruct (moving (drag w)); simpl;
    (split;
     [ repeat apply exitsFollowEnters_snoc; try assumption;
       simpl; intros; discriminate
     | split; intros s0 E0; repeat apply wasEntered_app; auto ]).
Qed.

Lemma domEvent_tracked : forall localPosition evt w,
  tracked w -> tracked (domEvent localPosition evt w).
Proof.
  intros lp evt w Hw. unfold domEvent.
  apply _prepareDrag_tracked, _listen_tracked.
  apply (tracked_ext w); auto.
Qed.

Lemma run_tracked : forall localPosition evts w,
  tracked w -> tracked (run localPosition w evts).
Proof.
  intros lp evts. induction evts as [| evt rest IH]; intros w Hw.
  - exact Hw.
  - simpl. apply IH. now apply domEvent_tracked.
Qed.

(** X2.  From a stage on which nothing has happened yet, whatever DOM
    events arrive, every mouseout is emitted on a node on which a
    mouseover was emitted before. *)
Theorem X2_no_exit_without_an_earlier_enter :
  forall localPosition rate layers attrs evts,
  exitsFollowEnters
    (emitted (run localPosition (newWorld rate layers attrs) evts)).
Proof.
  intros lp rate layers attrs evts.
  apply (run_tracked lp evts (newWorld rate layers attrs)).
  unfold tracked. simpl. split; [| split]; try discriminate.
  intros pre e post H. destruct pre; discriminate.
Qed.


(** ** What one dispatch emits *)

Ltac give_emitted :=
  first [ exists (@nil Emission); split; [symmetry; apply app_nil_r |]
        | eexists; split; [rewrite <- ?app_assoc; simpl; reflexivity |] ].

Ltac each_emitted :=
  let e := fresh "e" in
  let Hin := fresh "Hin" in
  intros e Hin; simpl in Hin;
  repeat (destruct Hin as [<- | Hin]); try contradiction; simpl; auto.

Lemma _detectEvent_emitted : forall shape w,
  exists l,
    emitted (snd (_detectEvent shape w)) = emitted w ++ l /\
    (length l <= 3)%nat /\
    (fst (_detectEvent shape w) = false -> l = []) /\
    (forall e, In e l ->
       isDragName (ename e) = false /\
       (ename e = mouseout \/ enode e = _id shape)).
Proof.
  intros shape w.
  unfold _detectEvent, clickOrTap, noDragAndDrop, _isNewTarget.
  break_match; give_emitted;
    (split; [simpl; lia | split; [intro; try discriminate; reflexivity |]]);
    each_emitted.
Qed.

Lemma firstHit_emitted : forall shapes w,
  exists l,
    emitted (snd (firstHit shapes w)) = emitted w ++ l /\
    (length l <= 3)%nat /\
    (fst (firstHit shapes w) = false -> l = []) /\
    (forall e, In e l -> isDragName (ename e) = false) /\
    (l = [] \/
     exists shape, In shape shapes /\
       forall e, In e l -> ename e = mouseout \/ enode e = _id shape).
Proof.
  induction shapes as [| shape rest IH]; intro w; simpl.
  - exists []. rewrite app_nil_r. repeat split; auto. intros e [].
  - destruct (_detectEvent_emitted shape w) as (l & He & Hn & Hf & Hall).
    destruct (_detectEvent shape w) as [[] w1]; simpl in *.
    + exists l. repeat split; auto; try discriminate.
      * intros e Hin. now apply Hall.
      * right. exists shape. split; [now left |].
        intros e Hin. now apply Hall.
    + rewrite (Hf eq_refl), app_nil_r in He.
      destruct (IH w1) as (l1 & He1 & Hn1 & Hf1 & Hd1 & Hc1).
      exists l1. rewrite He1, He. repeat split; auto.
      destruct Hc1 as [-> | (s & Hin & Hs)]; [now left |].
      right. exists s. split; [now right | exact Hs].
Qed.

Lemma _handleStageEvent_emitted : forall evt w,
  exists l,
    emitted (_handleStageEvent evt w) = emitted w ++ l /\
    (length l <= 3)%nat /\
    (forall e, In e l -> isDragName (ename e) = false) /\
    ((forall e, In e l -> ename e = mouseout) \/
     exists shape,
       In shape (candidates (children (stage w))) /\
       forall e, In e l -> ename e = mouseout \/ enode e = _id shape).
Proof.
  intros evt w. unfold _handleStageEvent.
  destruct (recordEvent_stage_frame evt w) as (_ & _ & Rc & _ & Re & _).
  rewrite traverseLayers_firstHit, Rc.
  destruct (firstHit_emitted (candidates (children (stage w)))
              (recordEvent evt w)) as (l & He & Hn & Hf & Hd & Hc).
  rewrite Re in He.
  destruct (firstHit _ (recordEvent evt w)) as [[] w1]; simpl in *.
  - exists l. repeat split; auto.
    destruct Hc as [-> | Hc]; [left; intros e [] | now right].
  - rewrite (Hf eq_refl), app_nil_r in He.
    destruct (mouseoutShape (stage w1)) as [out |]; simpl.
    + exists [{| ename := mouseout; enode := _id out |}].
      rewrite He. repeat split; simpl; auto.
      * intros e [<- | []]. reflexivity.
      * left. intros e [<- | []]. reflexivity.
    + exists []. rewrite He, app_nil_r. repeat split; simpl; auto.
      * intros e [].
      * left. intros e [].
Qed.

(** X3.  The dispatch of one raw event appends at most three emissions,
    none of them a drag event.  Either all of them are mouseouts, or
    there is one shape of the probing order (a listening shape, below
    listening groups only, in a visible and listening layer) such that
    everything but mouseouts is emitted on that shape: no second shape,
    and no shape outside the probing order, receives anything but a
    mouseout. *)
Theorem X3_one_dispatch_one_receiver : forall evt w,
  exists l,
    emitted (_handleStageEvent evt w) = emitted w ++ l /\
    (length l <= 3)%nat /\
    (forall e, In e l -> isDragName (ename e) = false) /\
    ((forall e, In e l -> ename e = mouseout) \/
     exists shape,
       In shape (candidates (children (stage w))) /\
       forall e, In e l -> ename e = mouseout \/ enode e = _id shape).
Proof. exact _handleStageEvent_emitted. Qed.

(** ** While a drag is moving *)

Lemma _detectEvent_dragging : forall shape w n,
  moving (drag w) = true -> node (drag w) = Some n ->
  exists l,
    emitted (snd (_detectEvent shape w)) = emitted w ++ l /\
    (forall e, In e l -> ename e = mouseup \/ ename e = touchend) /\
    targetShape (stage (snd (_detectEvent shape w))) =
      targetShape (stage w) /\
    mouseoutShape (stage (snd (_detectEvent shape w))) =
      mouseoutShape (stage w).
Proof.
  intros shape w n Hm Hn.
  unfold _detectEvent, clickOrTap, noDragAndDrop, _isNewTarget.
  break_match; simpl in *; rewrite ?Hm, ?Hn in *; simpl in *;
    try discriminate; give_emitted;
    (split; [each_emitted | split; congruence]).
Qed.

Lemma firstHit_dragging : forall shapes w n,
  moving (drag w) = true -> node (drag w) = Some n ->
  exists l,
    emitted (snd (firstHit shapes w)) = emitted w ++ l /\
    (forall e, In e l -> ename e = mouseup \/ ename e = touchend) /\
    targetShape (stage (snd (firstHit shapes w))) = targetShape (stage w) /\
    mouseoutShape (stage (snd (firstHit shapes w))) =
      mouseoutShape (stage w).
Proof.
  induction shapes as [| shape rest IH]; intros w n Hm Hn; simpl.
  - exists []. rewrite app_nil_r. repeat split. intros e [].
  - destruct (_detectEvent_dragging shape w n Hm Hn) as (l & He & Hl & Ht & Ho).
    destruct (_detectEvent_setting shape w) as (_ & Hd & _).
    destruct (_detectEvent shape w) as [[] w1]; simpl in *.
    + exists l. repeat split; assumption.
    + destruct (IH w1 n) as (l1 & He1 & Hl1 & Ht1 & Ho1);
        [now rewrite Hd | now rewrite Hd |].
      exists (l ++ l1). rewrite He1, He, app_assoc.
      repeat split; try congruence.
      intros e Hin. apply in_app_or in Hin. destruct Hin; auto.
Qed.

Lemma _handleStageEvent_dragging : forall evt w n,
  moving (drag w) = true -> node (drag w) = Some n ->
  targetShape (stage (_handleStageEvent evt w)) = targetShape (stage w) /\
  exists l,
    emitted (_handleStageEvent evt w) = emitted w ++ l /\
    forall e, In e l ->
      ename e = mouseup \/ ename e = touchend \/ ename e = mouseout.
Proof.
  intros evt w n Hm Hn. unfold _handleStageEvent.
  destruct (recordEvent_stage_frame evt w) as (Rt & _ & _ & Rd & Re & _).
  rewrite traverseLayers_firstHit.
  destruct (firstHit_dragging
              (candidates (children (stage (recordEvent evt w))))
              (recordEvent evt w) n) as (l & He & Hl & Ht & Ho);
    [now rewrite Rd | now rewrite Rd |].
  rewrite Re in He. rewrite Rt in Ht.
  destruct (firstHit _ (recordEvent evt w)) as [[] w1]; simpl in *.
  - split; [exact Ht |]. exists l. split; [exact He |].
    intros e Hin. destruct (Hl e Hin); auto.
  - destruct (mouseoutShape (stage w1)) as [out |]; simpl.
    + split; [exact Ht |].
      exists (l ++ [{| ename := mouseout; enode := _id out |}]).
      rewrite He, app_assoc. split; [reflexivity |].
      intros e Hin. apply in_app_or in Hin.
      destruct Hin as [Hin | [<- | []]]; [destruct (Hl e Hin) |]; auto.
    + split; [exact Ht |]. exists l. split; [exact He |].
      intros e Hin. destruct (Hl e Hin); auto.
Qed.

(** X4.  While a drag is moving, a dispatch emits nothing but mouseup,
    touchend and the pending mouseout: no press, click, double click,
    tap, hover enter or move event fires, and the tracked target stays
    what it was. *)
Theorem X4_a_moving_drag_silences_the_dispatch : forall evt w n,
  moving (drag w) = true -> node (drag w) = Some n ->
  targetShape (stage (_handleStageEvent evt w)) = targetShape (stage w) /\
  exists l,
    emitted (_handleStageEvent evt w) = emitted w ++ l /\
    forall e, In e l ->
      ename e = mouseup \/ ename e = touchend \/ ename e = mouseout.
Proof. exact _handleStageEvent_dragging. Qed.

(** ** The drag session *)







(** X6.  The drag listener is not throttled.  A mousemove or touchmove
    that the throttle drops records no new position and dispatches
    nothing, yet it still runs the drag listener: the dragged node is
    placed once more from the last recorded user position, and dragmove
    (after dragstart, if the session was not yet moving) is emitted. *)
Theorem X6_a_dropped_move_still_drags :
  forall localPosition evt w n pos,
  isMove evt = true ->
  throttlePassed (stage w) (time evt) = false ->
  node (drag w) = Some n ->
  getUserPosition (stage w) = Some pos ->
  stage (domEvent localPosition evt w) = stage w /\
  attrsOf (domEvent localPosition evt w) n =
    dragNode localPosition (offset (drag w)) pos (attrsOf w n) /\
  emitted (domEvent localPosition evt w) =
    emitted w ++
    (if moving (drag w) then []
     else [{| ename := dragstart; enode := n |}]) ++
    [{| ename := dragmove; enode := n |}].
Proof.
  intros lp evt w n pos Hmv Hdrop Hn Hp.
  unfold domEvent, _listen, _prepareDrag, isMove in *.
  destruct (etype evt); try discriminate;
    [unfold onMousemove | unfold onTouchmove];
    simpl; rewrite Hdrop; unfold onDragMove; simpl; rewrite Hn, Hp; simpl;
    destruct (moving (drag w)); simpl; rewrite Nat.eqb_refl;
    rewrite <- ?app_assoc; repeat split.
Qed.

Lemma X6_witness :
  attrsOf
    (domEvent untransformed (mouseAt DomMousemove 5 500)
       (onStage (set_lastEventTime 0) grabbed)) 7%nat =
  {| x := 50; y := 20; dragConstraint := horizontal;
     dragBounds := {| left := Some 10; right := Some 100;
                      top := None; bottom := None |} |} /\
  emitted
    (domEvent untransformed (mouseAt DomMousemove 5 500)
       (onStage (set_lastEventTime 0) grabbed)) =
  [{| ename := dragstart; enode := 7%nat |};
   {| ename := dragmove; enode := 7%nat |}].
Proof.
  destruct (X6_a_dropped_move_still_drags untransformed
              (mouseAt DomMousemove 5 500)
              (onStage (set_lastEventTime 0) grabbed)
              7%nat {| px := 50; py := 20 |}
              eq_refl eq_refl eq_refl eq_refl) as (_ & Ha & He).
  split; [exact Ha | exact He].
Defined.

(** X7.  Dropping: a mouseup or touchend that arrives while a drag is
    moving fires no click, double click, tap or double tap; the dispatch
    emits only mouseup, touchend or a pending mouseout, then the drag
    listener emits dragend on the dragged node, last, and the session is
    over ([node] undefined, [moving] false). *)
Theorem X7_a_drop_is_not_a_click : forall localPosition evt w n,
  etype evt = DomMouseup \/ etype evt = DomTouchend ->
  moving (drag w) = true -> node (drag w) = Some n ->
  drag (domEvent localPosition evt w) =
    {| node := None; moving := false; offset := offset (drag w) |} /\
  exists l,
    emitted (domEvent localPosition evt w) =
      emitted w ++ l ++ [{| ename := dragend; enode := n |}] /\
    forall e, In e l ->
      ename e = mouseup \/ ename e = touchend \/ ename e = mouseout.
Proof.
  intros lp evt w n Hty Hm Hn.
  assert (Hd : forall f,
    let w1 := _handleStageEvent evt (onStage f (runTimers (time evt) w)) in
    drag w1 = drag w /\
    exists l, emitted w1 = emitted w ++ l /\
      forall e, In e l ->
        ename e = mouseup \/ ename e = touchend \/ ename e = mouseout).
  { intros f w1. subst w1.
    destruct (_handleStageEvent_setting evt
                (onStage f (runTimers (time evt) w))) as (_ & Hdr & _).
    destruct (_handleStageEvent_dragging evt
                (onStage f (runTimers (time evt) w)) n Hm Hn)
      as (_ & l & He & Hl).
    split; [exact Hdr |]. exists l. split; [exact He | exact Hl]. }
  unfold domEvent, _listen, _prepareDrag.
  destruct Hty as [Hty | Hty]; rewrite Hty;
    [unfold onMouseup; destruct (Hd (setMouseFlags false true false))
       as (Hdr & l & He & Hl)
    |unfold onTouchend; destruct (Hd (setTouchFlags false true false))
       as (Hdr & l & He & Hl)];
    unfold _endDrag; simpl; rewrite Hdr, Hn, Hm; simpl;
    (split; [reflexivity |]); exists l; rewrite He, <- app_assoc;
    (split; [reflexivity | exact Hl]).
Qed.

Lemma X7_witness :
  emitted
    (domEvent untransformed (mouseAt DomMouseup 2000 5)
       (onDragMove untransformed grabbed)) =
  [{| ename := dragstart; enode := 7%nat |};
   {| ename := dragmove; enode := 7%nat |};
   {| ename := mouseup; enode := 1%nat |};
   {| ename := dragend; enode := 7%nat |}] /\
  node (drag (domEvent untransformed (mouseAt DomMouseup 2000 5)
                (onDragMove untransformed grabbed))) = None.
Proof.
  destruct (X7_a_drop_is_not_a_click untransformed
              (mouseAt DomMouseup 2000 5)
              (onDragMove untransformed grabbed) 7%nat
              (or_introl eq_refl) eq_refl eq_refl) as (Hd & _).
  split; [reflexivity | now rewrite Hd].
Defined.

Lemma X4_witness :
  targetShape
    (stage (_handleStageEvent (mouseAt DomMousemove 2000 5)
              (onStage (setMouseFlags false false true)
                 (onDragMove untransformed grabbed)))) = None.
Proof.
  apply (X4_a_moving_drag_silences_the_dispatch
           (mouseAt DomMousemove 2000 5)
           (onStage (setMouseFlags false false true)
              (onDragMove untransformed grabbed)) 7%nat eq_refl eq_refl).
Defined.


(** ** A rate of zero *)

Lemma count_snoc : forall name l e,
  count name (l ++ [e]) =
  count name l + (if EventName_eqb (ename e) name then 1 else 0).
Proof.
  intros name l e. rewrite count_app. unfold count at 2. simpl.
  now destruct (EventName_eqb (ename e) name).
Qed.

Lemma _detectEvent_moveless : forall shape w,
  mouseMove (stage w) = false -> touchMove (stage w) = false ->
  mouseMove (stage (snd (_detectEvent shape w))) = false /\
  touchMove (stage (snd (_detectEvent shape w))) = false /\
  count mousemove (emitted (snd (_detectEvent shape w))) =
    count mousemove (emitted w) /\
  count touchmove (emitted (snd (_detectEvent shape w))) =
    count touchmove (emitted w).
Proof.
  intros shape w Hm Ht.
  unfold _detectEvent, clickOrTap, noDragAndDrop, _isNewTarget.
  break_match; simpl in *; rewrite ?Hm, ?Ht, ?andb_false_r in *;
    try discriminate; rewrite ?count_snoc; simpl;
    repeat split; try assumption; lia.
Qed.

Lemma firstHit_moveless : forall shapes w,
  mouseMove (stage w) = false -> touchMove (stage w) = false ->
  mouseMove (stage (snd (firstHit shapes w))) = false /\
  touchMove (stage (snd (firstHit shapes w))) = false /\
  count mousemove (emitted (snd (firstHit shapes w))) =
    count mousemove (emitted w) /\
  count touchmove (emitted (snd (firstHit shapes w))) =
    count touchmove (emitted w).
Proof.
  induction shapes as [| shape rest IH]; intros w Hm Ht; simpl.
  - repeat split; assumption.
  - destruct (_detectEvent_moveless shape w Hm Ht) as (H1 & H2 & H3 & H4).
    destruct (_detectEvent shape w) as [[] w1]; simpl in *.
    + repeat split; assumption.
    + destruct (IH w1 H1 H2) as (I1 & I2 & I3 & I4).
      repeat split; congruence.
Qed.

Lemma _handleStageEvent_moveless : forall evt w,
  mouseMove (stage w) = false -> touchMove (stage w) = false ->
  mouseMove (stage (_handleStageEvent evt w)) = false /\
  touchMove (stage (_handleStageEvent evt w)) = false /\
  count mousemove (emitted (_handleStageEvent evt w)) =
    count mousemove (emitted w) /\
  count touchmove (emitted (_handleStageEvent evt w)) =
    count touchmove (emitted w).
Proof.
  intros evt w Hm Ht. unfold _handleStageEvent.
  rewrite traverseLayers_firstHit.
  assert (Rm : mouseMove (stage (recordEvent evt w)) = false).
  { unfold recordEvent, _setTouchPosition.
    destruct (touches evt) as [[| t [| t' ts]] |]; exact Hm. }
  assert (Rt : touchMove (stage (recordEvent evt w)) = false).
  { unfold recordEvent, _setTouchPosition.
    destruct (touches evt) as [[| t [| t' ts]] |]; exact Ht. }
  destruct (recordEvent_stage_frame evt w) as (_ & _ & _ & _ & Re & _).
  destruct (firstHit_moveless
              (candidates (children (stage (recordEvent evt w))))
              (recordEvent evt w) Rm Rt) as (H1 & H2 & H3 & H4).
  rewrite Re in H3, H4.
  destruct (firstHit _ (recordEvent evt w)) as [[] w1]; simpl in *.
  - repeat split; assumption.
  - destruct (mouseoutShape (stage w1)); simpl; rewrite ?count_snoc; simpl;
      repeat split; try assumption; lia.
Qed.

Lemma domEvent_moveless : forall localPosition evt w,
  moveless w ->
  moveless (domEvent localPosition evt w) /\
  count mousemove (emitted (domEvent localPosition evt w)) =
    count mousemove (emitted w) /\
  count touchmove (emitted (domEvent localPosition evt w)) =
    count touchmove (emitted w).
Proof.
  intros lp evt w (Hr & Hm & Ht).
  assert (Hl : moveless (_listen evt (runTimers (time evt) w)) /\
               count mousemove (emitted (_listen evt (runTimers (time evt) w)))
               = count mousemove (emitted w) /\
               count touchmove (emitted (_listen evt (runTimers (time evt) w)))
               = count touchmove (emitted w)).
  { assert (Hd : forall f,
              mouseMove (f (stage w)) = false ->
              touchMove (f (stage w)) = false ->
              throttle (f (stage w)) = 0 ->
              let w1 := _handleStageEvent evt
                          (onStage f (runTimers (time evt) w)) in
              throttle (stage w1) = 0 /\
              mouseMove (stage w1) = false /\
              touchMove (stage w1) = false /\
              count mousemove (emitted w1) = count mousemove (emitted w) /\
              count touchmove (emitted w1) = count touchmove (emitted w)).
    { intros f Fm Ft Fr w1. subst w1.
      destruct (_handleStageEvent_moveless evt
                  (onStage f (runTimers (time evt) w)) Fm Ft)
        as (H1 & H2 & H3 & H4).
      destruct (_handleStageEvent_setting evt
                  (onStage f (runTimers (time evt) w)))
        as (_ & _ & _ & Hth & _).
      simpl in *. rewrite Hth. repeat split; assumption. }
    unfold _listen, onMousedown, onMousemove, onMouseup, onMouseover,
      onMouseout, onTouchstart, onTouchmove, onTouchend, throttlePassed.
    simpl. rewrite Hr. simpl.
    destruct (etype evt).
    - destruct (Hd (setMouseFlags true false false) eq_refl Ht Hr)
        as (D1 & D2 & D3 & D4 & D5).
      unfold moveless. repeat split; assumption.
    - unfold moveless. repeat split; assumption.
    - destruct (Hd (setMouseFlags false true false) eq_refl Ht Hr)
        as (D1 & D2 & D3 & D4 & D5).
      unfold moveless. simpl. repeat split; assumption.
    - destruct (_handleStageEvent_moveless evt (runTimers (time evt) w)
                  Hm Ht) as (H1 & H2 & H3 & H4).
      destruct (_handleStageEvent_setting evt (runTimers (time evt) w))
        as (_ & _ & _ & Hth & _).
      unfold moveless. simpl in *. rewrite Hth.
      repeat split; assumption.
    - unfold moveless.
      destruct (targetShape (stage w)); simpl; rewrite ?count_snoc; simpl;
        repeat split; try assumption; lia.
    - destruct (Hd (setTouchFlags true false false) Hm eq_refl Hr)
        as (D1 & D2 & D3 & D4 & D5).
      unfold moveless. repeat split; assumption.
    - unfold moveless. repeat split; assumption.
    - destruct (Hd (setTouchFlags false true false) Hm eq_refl Hr)
        as (D1 & D2 & D3 & D4 & D5).
      unfold moveless. simpl. repeat split; assumption. }
  destruct Hl as ((Lr & Lm & Lt) & Lc1 & Lc2).
  unfold domEvent, moveless. rewrite _prepareDrag_stage.
  split; [repeat split; assumption |].
  rewrite <- Lc1, <- Lc2.
  set (w1 := _listen evt (runTimers (time evt) w)). clearbody w1.
  unfold _prepareDrag, onDragMove, _endDrag.
  destruct (etype evt); try (split; reflexivity);
    destruct (node (drag w1)); try (split; reflexivity);
    try (destruct (getUserPosition (stage w1)); [| split; reflexivity]; simpl);
    destruct (moving (drag w1)); simpl; rewrite ?count_snoc; simpl;
    split; lia.
Qed.

(** X8.  With [attrs.throttle] set to zero every mousemove and touchmove
    is dropped ([1000 / 0] is [Infinity]); from a stage whose move flags
    are clear, no sequence of DOM events ever emits mousemove or touchmove
    on a shape. *)
Theorem X8_rate_zero_switches_moves_off : forall localPosition evts w,
  moveless w ->
  count mousemove (emitted (run localPosition w evts)) =
    count mousemove (emitted w) /\
  count touchmove (emitted (run localPosition w evts)) =
    count touchmove (emitted w).
Proof.
  intros lp evts. induction evts as [| evt rest IH]; intros w Hw.
  - split; reflexivity.
  - simpl. destruct (domEvent_moveless lp evt w Hw) as (Hw1 & H1 & H2).
    destruct (IH _ Hw1) as (I1 & I2). split; congruence.
Qed.

Lemma X8_witness :
  count mousemove
    (emitted (run untransformed (newWorld 0 twoShapes plainAttrs)
                [mouseAt DomMousemove 1000 5; mouseAt DomMousedown 2000 5;
                 mouseAt DomMousemove 3000 5])) = 0.
Proof.
  apply (X8_rate_zero_switches_moves_off untransformed
           [mouseAt DomMousemove 1000 5; mouseAt DomMousedown 2000 5;
            mouseAt DomMousemove 3000 5]
           (newWorld 0 twoShapes plainAttrs)).
  repeat split.
Defined.

(** ** The double-click window along a run *)

Lemma _detectEvent_windowsTimed : forall shape w now,
  windowsTimed now w -> windowsTimed now (snd (_detectEvent shape w)).
Proof.
  intros shape w now H.
  destruct (_detectEvent_setting shape w) as (_ & _ & _ & _ & _ & _ & Hw & Hl).
  unfold windowsTimed. rewrite Hw, Hl. clear Hw Hl.
  unfold _detectEvent, clickOrTap, noDragAndDrop, _isNewTarget.
  break_match; simpl in *; destruct H as (Hf & Hd & Hn);
    (split; [| split]; [| | exact Hn]); try assumption.
  all: try (intros n0 Hopen;
            destruct (Nat.eqb n0 (_id shape)) eqn:En;
            [ apply Nat.eqb_eq in En; subst n0; eexists; split;
              [apply in_or_app; right; left; reflexivity | reflexivity]
            | destruct (Hf n0 Hopen) as (t0 & Hin & Hs); exists t0;
              split; [apply in_or_app; now left | exact Hs] ]).
  all: intros t0 Hin; apply in_app_or in Hin;
    destruct Hin as [Hin | [<- | []]]; [now apply Hd | simpl; lia].
Qed.

Lemma firstHit_windowsTimed : forall shapes w now,
  windowsTimed now w -> windowsTimed now (snd (firstHit shapes w)).
Proof.
  induction shapes as [| shape rest IH]; intros w now Hw; simpl.
  - exact Hw.
  - pose proof (_detectEvent_windowsTimed shape w now Hw) as Hs.
    destruct (_detectEvent shape w) as [[] w1]; simpl in *; auto.
Qed.

Lemma runTimers_windowsTimed : forall now w t0,
  windowsTimed t0 w -> windowsTimed t0 (runTimers now w).
Proof.
  intros now w t0 (Hf & Hd & Hn). unfold windowsTimed. simpl.
  split; [| split; [| exact Hn]].
  - intros n Hopen.
    destruct (existsb (fun t => (due t <=? now) && Nat.eqb (tshape t) n)
                (timers w)) eqn:Ex; [discriminate |].
    destruct (Hf n Hopen) as (t & Hin & Hs). exists t. split; [| exact Hs].
    apply filter_In. split; [exact Hin |].
    destruct (now <? due t) eqn:El; [reflexivity |].
    assert (Hex : existsb (fun t => (due t <=? now) && Nat.eqb (tshape t) n)
                    (timers w) = true).
    { apply existsb_exists. exists t. split; [exact Hin |].
      rewrite Hs, Nat.eqb_refl, andb_true_r. lia. }
    congruence.
  - intros t Hin. apply filter_In in Hin. now apply Hd.
Qed.

(** Once the clock is [dblClickWindow] past the last dispatch, the
    callbacks that run close every window. *)
Lemma windowsTimed_close : forall t1 now w n,
  windowsTimed t1 w ->
  lastEventTime (stage w) + dblClickWindow (stage w) <= now ->
  inDoubleClickWindow (runTimers now w) n = false.
Proof.
  intros t1 now w n (Hf & Hd & _) Hlate. simpl.
  destruct (existsb (fun t => (due t <=? now) && Nat.eqb (tshape t) n)
              (timers w)) eqn:Ex; [reflexivity |].
  destruct (inDoubleClickWindow w n) eqn:Eo; [| reflexivity].
  destruct (Hf n Eo) as (t & Hin & Hs).
  assert (Hex : existsb (fun t => (due t <=? now) && Nat.eqb (tshape t) n)
                  (timers w) = true).
  { apply existsb_exists. exists t. split; [exact Hin |].
    rewrite Hs, Nat.eqb_refl, andb_true_r. specialize (Hd t Hin). lia. }
  congruence.
Qed.


Lemma windowsTimed_ext : forall now w w',
  inDoubleClickWindow w' = inDoubleClickWindow w ->
  timers w' = timers w ->
  lastEventTime (stage w') = lastEventTime (stage w) ->
  dblClickWindow (stage w') = dblClickWindow (stage w) ->
  windowsTimed now w -> windowsTimed now w'.
Proof.
  unfold windowsTimed. intros now w w' Hf Ht Hl Hw H.
  now rewrite Hf, Ht, Hl, Hw.
Qed.

Lemma windowsTimed_later : forall t0 t w,
  windowsTimed t0 w -> t0 <= t -> windowsTimed t w.
Proof.
  unfold windowsTimed. intros t0 t w (Hf & Hd & Hn) Hle.
  repeat split; auto. lia.
Qed.

Lemma _handleStageEvent_windowsTimed : forall evt w t0,
  windowsTimed t0 w -> t0 <= time evt ->
  windowsTimed (time evt) (_handleStageEvent evt w).
Proof.
  intros evt w t0 (Hf & Hd & Hn) Hle. unfold _handleStageEvent.
  rewrite traverseLayers_firstHit.
  assert (Hr : windowsTimed (time evt) (recordEvent evt w)).
  { destruct (recordEvent_setting evt w) as (_ & _ & _ & _ & Rw & Rl & _).
    unfold windowsTimed. rewrite Rw, Rl.
    assert (Rf : inDoubleClickWindow (recordEvent evt w) =
                 inDoubleClickWindow w) by reflexivity.
    assert (Rt : timers (recordEvent evt w) = timers w) by reflexivity.
    rewrite Rf, Rt. repeat split; auto; try lia.
    intros t Hin. specialize (Hd t Hin). lia. }
  pose proof (firstHit_windowsTimed
                (candidates (children (stage (recordEvent evt w))))
                (recordEvent evt w) (time evt) Hr) as Hs.
  destruct (firstHit _ (recordEvent evt w)) as [[] w1]; simpl in *.
  - exact Hs.
  - destruct (mouseoutShape (stage w1)); [| exact Hs].
    eapply windowsTimed_ext; [| | | | exact Hs]; reflexivity.
Qed.

Lemma _listen_windowsTimed : forall evt w t0,
  windowsTimed t0 w -> t0 <= time evt ->
  windowsTimed (time evt) (_listen evt w).
Proof.
  intros evt w t0 Hw Hle.
  assert (Hd : forall f,
            (forall s, lastEventTime (f s) = lastEventTime s) ->
            (forall s, dblClickWindow (f s) = dblClickWindow s) ->
            windowsTimed (time evt) (_handleStageEvent evt (onStage f w))).
  { intros f Fl Fw. apply (_handleStageEvent_windowsTimed evt _ t0);
      [| exact Hle].
    apply (windowsTimed_ext t0 w); simpl; auto. }
  unfold _listen, onMousedown, onMousemove, onMouseup, onMouseover,
    onMouseout, onTouchstart, onTouchmove, onTouchend.
  destruct (etype evt).
  - apply Hd; reflexivity.
  - destruct (throttlePassed (stage w) (time evt));
      [apply Hd; reflexivity | now apply (windowsTimed_later t0)].
  - eapply windowsTimed_ext;
      [| | | | apply (Hd (setMouseFlags false true false))]; reflexivity.
  - now apply (_handleStageEvent_windowsTimed evt w t0).
  - apply (windowsTimed_later t0); [| exact Hle].
    destruct (targetShape (stage w));
      (eapply windowsTimed_ext; [| | | | exact Hw]; reflexivity).
  - apply Hd; reflexivity.
  - destruct (throttlePassed (stage w) (time evt));
      [apply Hd; reflexivity | now apply (windowsTimed_later t0)].
  - eapply windowsTimed_ext;
      [| | | | apply (Hd (setTouchFlags false true false))]; reflexivity.
Qed.

Lemma _prepareDrag_windows : forall localPosition evt w,
  inDoubleClickWindow (_prepareDrag localPosition evt w) =
    inDoubleClickWindow w /\
  timers (_prepareDrag localPosition evt w) = timers w.
Proof.
  intros lp evt w. unfold _prepareDrag, onDragMove, _endDrag.
  destruct (etype evt); try (split; reflexivity);
    destruct (node (drag w)); try (split; reflexivity);
    try (destruct (getUserPosition (stage w)); [| split; reflexivity]; simpl);
    destruct (moving (drag w)); split; reflexivity.
Qed.

Lemma domEvent_windowsTimed : forall localPosition evt w t0,
  windowsTimed t0 w -> t0 <= time evt ->
  windowsTimed (time evt) (domEvent localPosition evt w).
Proof.
  intros lp evt w t0 Hw Hle. unfold domEvent.
  destruct (_prepareDrag_windows lp evt (_listen evt (runTimers (time evt) w)))
    as (Pf & Pt).
  eapply windowsTimed_ext; [exact Pf | exact Pt | | |].
  - now rewrite _prepareDrag_stage.
  - now rewrite _prepareDrag_stage.
  - apply (_listen_windowsTimed evt _ t0); [| exact Hle].
    now apply runTimers_windowsTimed.
Qed.

Lemma run_windowsTimed : forall localPosition evts w t0,
  windowsTimed t0 w -> clockFrom t0 evts ->
  exists t1, windowsTimed t1 (run localPosition w evts).
Proof.
  intros lp evts. induction evts as [| evt rest IH]; intros w t0 Hw Hc.
  - exists t0. exact Hw.
  - simpl in *. destruct Hc as [Hle Hc].
    apply (IH _ (time evt)); [| exact Hc].
    now apply (domEvent_windowsTimed lp evt w t0).
Qed.

(** X9.  A double-click window does not outlive its delay.  After any
    sequence of DOM events whose clock readings never decrease, from a
    stage on which nothing has happened yet, a listener that runs
    [dblClickWindow] (400 ms) or more after the last dispatched event
    finds [inDoubleClickWindow] false on every shape. *)
Theorem X9_windows_close_after_the_delay :
  forall localPosition rate layers attrs evts now n,
  clockFrom 0 evts ->
  lastEventTime
    (stage (run localPosition (newWorld rate layers attrs) evts)) +
  dblClickWindow
    (stage (run localPosition (newWorld rate layers attrs) evts)) <= now ->
  inDoubleClickWindow
    (runTimers now (run localPosition (newWorld rate layers attrs) evts)) n =
  false.
Proof.
  intros lp rate layers attrs evts now n Hc Hlate.
  destruct (run_windowsTimed lp evts (newWorld rate layers attrs) 0)
    as (t1 & (Hf & Hd & Hn)); [| exact Hc |].
  - unfold windowsTimed. simpl. repeat split; try discriminate; try lia.
  - apply (windowsTimed_close t1 now _ n); [| exact Hlate].
    unfold windowsTimed. repeat split; auto.
Qed.

Lemma X9_witness :
  inDoubleClickWindow
    (runTimers 1700
       (run untransformed (newWorld 80 twoShapes plainAttrs)
          (firstn 4 (threeClicks {| px := 25; py := 0 |}
                       1000 1000 1300 1300 1500 1500)))) 2%nat = false.
Proof.
  apply (X9_windows_close_after_the_delay untransformed 80 twoShapes
           plainAttrs
           (firstn 4 (threeClicks {| px := 25; py := 0 |}
                        1000 1000 1300 1300 1500 1500)) 1700 2%nat).
  - simpl. lia.
  - simpl. lia.
Defined.

(** ** Double clicks are earned *)

Lemma wasClicked_app : forall n l l',
  wasClicked n l -> wasClicked n (l ++ l').
Proof.
  intros n l l' (e & Hin & Hs & Hn). exists e.
  split; [apply in_or_app; now left | now split].
Qed.

Lemma wasClicked_here : forall name n l,
  isSingle name = true ->
  wasClicked n (l ++ [{| ename := name; enode := n |}]).
Proof.
  intros name n l Hs. exists {| ename := name; enode := n |}.
  split; [apply in_or_app; right; now left | now split].
Qed.

Lemma doublesFollowSingles_snoc : forall log e,
  doublesFollowSingles log ->
  (isDouble (ename e) = true ->
   exists before single,
     log = before ++ [single] /\
     isSingle (ename single) = true /\ enode single = enode e /\
     wasClicked (enode e) before) ->
  doublesFollowSingles (log ++ [e]).
Proof.
  unfold doublesFollowSingles. intros log e Hlog He pre e0 post Heq Hd.
  destruct (exists_last (l := e0 :: post)) as (mid & lst & Hmid);
    [discriminate |].
  rewrite Hmid, app_assoc in Heq. apply app_inj_tail in Heq.
  destruct Heq as [Hl Hlast]. subst lst.
  destruct mid as [| e1 mid].
  - simpl in Hmid. inversion Hmid; subst.
    rewrite app_nil_r in *. now apply He.
  - inversion Hmid; subst. now apply (Hlog pre e1 mid).
Qed.

Ltac clicked :=
  repeat first [ apply wasClicked_here; reflexivity
               | apply wasClicked_app ]; eauto.

Lemma _detectEvent_windowsEarned : forall shape w,
  windowsEarned w -> windowsEarned (snd (_detectEvent shape w)).
Proof.
  intros shape w H.
  unfold _detectEvent, clickOrTap, noDragAndDrop, _isNewTarget.
  break_match; simpl in *; destruct H as (Hd & Hf);
  (split;
   [ repeat (apply doublesFollowSingles_snoc;
             [| simpl; intro Hx; try discriminate]);
     try assumption;
     do 2 eexists; (split; [reflexivity |]); simpl;
     repeat split; clicked
   | intros n0 Hopen; simpl in Hopen;
     try (destruct (Nat.eqb n0 (_id shape)) eqn:En;
          [apply Nat.eqb_eq in En; subst n0 |]);
     simpl; clicked ]).
Qed.

Lemma firstHit_windowsEarned : forall shapes w,
  windowsEarned w -> windowsEarned (snd (firstHit shapes w)).
Proof.
  induction shapes as [| shape rest IH]; intros w Hw; simpl.
  - exact Hw.
  - pose proof (_detectEvent_windowsEarned shape w Hw) as Hs.
    destruct (_detectEvent shape w) as [[] w1]; simpl in *; auto.
Qed.

Lemma windowsEarned_ext : forall w w',
  emitted w' = emitted w ->
  inDoubleClickWindow w' = inDoubleClickWindow w ->
  windowsEarned w -> windowsEarned w'.
Proof.
  unfold windowsEarned. intros w w' He Hf H. now rewrite He, Hf.
Qed.

Lemma windowsEarned_emit : forall n name w,
  isDouble name = false ->
  windowsEarned w -> windowsEarned (_handleEvents n name w).
Proof.
  intros n name w Hn (Hd & Hf). split; simpl.
  - apply doublesFollowSingles_snoc; [exact Hd |].
    simpl. intro Hx. congruence.
  - intros n0 Hopen. apply wasClicked_app. now apply Hf.
Qed.

Lemma _handleStageEvent_windowsEarned : forall evt w,
  windowsEarned w -> windowsEarned (_handleStageEvent evt w).
Proof.
  intros evt w Hw. unfold _handleStageEvent.
  rewrite traverseLayers_firstHit.
  assert (Hr : windowsEarned (recordEvent evt w))
    by (apply (windowsEarned_ext w); [reflexivity | reflexivity | exact Hw]).
  pose proof (firstHit_windowsEarned
                (candidates (children (stage (recordEvent evt w))))
                (recordEvent evt w) Hr) as Hs.
  destruct (firstHit _ (recordEvent evt w)) as [[] w1]; simpl in *.
  - exact Hs.
  - destruct (mouseoutShape (stage w1)) as [out |]; [| exact Hs].
    apply (windowsEarned_ext (_handleEvents (_id out) mouseout w1));
      [reflexivity | reflexivity |].
    now apply windowsEarned_emit.
Qed.

Lemma _listen_windowsEarned : forall evt w,
  windowsEarned w -> windowsEarned (_listen evt w).
Proof.
  intros evt w Hw.
  assert (Hd : forall f,
            windowsEarned (_handleStageEvent evt (onStage f w))).
  { intro f. apply _handleStageEvent_windowsEarned.
    apply (windowsEarned_ext w); [reflexivity | reflexivity | exact Hw]. }
  unfold _listen, onMousedown, onMousemove, onMouseup, onMouseover,
    onMouseout, onTouchstart, onTouchmove, onTouchend.
  destruct (etype evt).
  - apply Hd.
  - destruct (throttlePassed (stage w) (time evt)); [apply Hd | exact Hw].
  - apply (windowsEarned_ext
             (_handleStageEvent evt
                (onStage (setMouseFlags false true false) w)));
      [reflexivity | reflexivity | apply Hd].
  - now apply _handleStageEvent_windowsEarned.
  - destruct (targetShape (stage w)) as [t |].
    + apply (windowsEarned_ext (_handleEvents (_id t) mouseout w));
        [reflexivity | reflexivity |].
      now apply windowsEarned_emit.
    + apply (windowsEarned_ext w); [reflexivity | reflexivity | exact Hw].
  - apply Hd.
  - destruct (throttlePassed (stage w) (time evt)); [apply Hd | exact Hw].
  - apply (windowsEarned_ext
             (_handleStageEvent evt
                (onStage (setTouchFlags false true false) w)));
      [reflexivity | reflexivity | apply Hd].
Qed.

Lemma _prepareDrag_windowsEarned : forall localPosition evt w,
  windowsEarned w -> windowsEarned (_prepareDrag localPosition evt w).
Proof.
  intros lp evt w Hw. unfold _prepareDrag, onDragMove, _endDrag.
  destruct (etype evt); try exact Hw;
    destruct (node (drag w)) as [m |];
    try (destruct (getUserPosition (stage w)); [| exact Hw]; simpl);
    try (apply (windowsEarned_ext w); [reflexivity | reflexivity | exact Hw]);
    destruct (moving (drag w)); simpl.
  all: try (apply (windowsEarned_ext w);
            [reflexivity | reflexivity | exact Hw]).
  all: repeat first
         [ apply windowsEarned_emit; [reflexivity |]
         | match goal with
           | |- windowsEarned (set_drag ?d ?w0) =>
               apply (windowsEarned_ext w0); [reflexivity | reflexivity |]
           | |- windowsEarned (set_attrsOf ?n ?a ?w0) =>
               apply (windowsEarned_ext w0); [reflexivity | reflexivity |]
           end ]; try exact Hw.
Qed.

Lemma runTimers_windowsEarned : forall now w,
  windowsEarned w -> windowsEarned (runTimers now w).
Proof.
  intros now w (Hd & Hf). split; simpl; [exact Hd |].
  intros n Hopen.
  destruct (existsb _ (timers w)); [discriminate | now apply Hf].
Qed.

Lemma run_windowsEarned : forall localPosition evts w,
  windowsEarned w -> windowsEarned (run localPosition w evts).
Proof.
  intros lp evts. induction evts as [| evt rest IH]; intros w Hw.
  - exact Hw.
  - simpl. apply IH. unfold domEvent.
    apply _prepareDrag_windowsEarned, _listen_windowsEarned,
      runTimers_windowsEarned, Hw.
Qed.

(** X10.  From a stage on which nothing has happened yet, whatever DOM
    events arrive, every dblclick or dbltap is emitted directly after a
    click or tap on the same node, and an earlier click or tap on that
    node precedes the pair: no double click is fired on a node that was
    clicked only once, or on the strength of clicks on another node. *)
Theorem X10_double_clicks_are_earned :
  forall localPosition rate layers attrs evts,
  doublesFollowSingles
    (emitted (run localPosition (newWorld rate layers attrs) evts)).
Proof.
  intros lp rate layers attrs evts.
  apply (run_windowsEarned lp evts (newWorld rate layers attrs)).
  split; simpl; [| discriminate].
  intros pre e post H. destruct pre; discriminate.
Qed.

(** ** The id and name registries *)

Lemma removeLoop_past_the_end : forall fuel n target nodes,
  (length nodes <= n)%nat -> removeLoop fuel n target nodes = nodes.
Proof.
  intros [| fuel] n target nodes Hle; simpl; [reflexivity |].
  destruct (Nat.ltb_spec n (length nodes)); [lia | reflexivity].
Qed.

Lemma splice1_middle : forall pre no rest,
  splice1 (length pre) (pre ++ no :: rest) = pre ++ rest.
Proof.
  induction pre as [| a pre IH]; intros no rest.
  - reflexivity.
  - unfold splice1 in *. simpl. f_equal. apply IH.
Qed.

Lemma nth_error_middle : forall (pre : list NodeRef) no rest,
  nth_error (pre ++ no :: rest) (length pre) = Some no.
Proof.
  induction pre as [| a pre IH]; intros no rest; [reflexivity | apply IH].
Qed.

(** With one unit of fuel per element still to walk, the loop comes to
    its end, and what it leaves is [sweep] of the part not yet walked. *)
Lemma removeLoop_sweep : forall fuel pre suf target,
  (length suf <= fuel)%nat ->
  removeLoop fuel (length pre) target (pre ++ suf) =
  pre ++ sweep target suf.
Proof.
  induction fuel as [| fuel IH]; intros pre suf target Hle.
  - destruct suf; [simpl; now rewrite app_nil_r | simpl in Hle; lia].
  - destruct suf as [| no rest].
    + simpl sweep. rewrite app_nil_r. apply removeLoop_past_the_end. lia.
    + simpl removeLoop.
      assert (Hlt : Nat.ltb (length pre) (length (pre ++ no :: rest)) = true).
      { apply Nat.ltb_lt. rewrite length_app. simpl. lia. }
      rewrite Hlt, nth_error_middle. simpl sweep. simpl in Hle.
      destruct (Nat.eqb (nodeId no) target).
      * rewrite splice1_middle. destruct rest as [| kept rest'].
        -- rewrite app_nil_r. apply removeLoop_past_the_end. lia.
        -- replace (S (length pre)) with (length (pre ++ [kept]))
             by (rewrite length_app; simpl; lia).
           replace (pre ++ kept :: rest') with ((pre ++ [kept]) ++ rest')
             by (now rewrite <- app_assoc).
           rewrite IH by (simpl in Hle; lia).
           now rewrite <- app_assoc.
      * replace (S (length pre)) with (length (pre ++ [no]))
          by (rewrite length_app; simpl; lia).
        replace (pre ++ no :: rest) with ((pre ++ [no]) ++ rest)
          by (now rewrite <- app_assoc).
        rewrite IH by lia. now rewrite <- app_assoc.
Qed.

Lemma sweep_keep : forall target a rest,
  Nat.eqb (nodeId a) target = false ->
  sweep target (a :: rest) = a :: sweep target rest.
Proof. intros target a rest H. simpl. now rewrite H. Qed.

Lemma sweep_drop : forall target a b rest,
  Nat.eqb (nodeId a) target = true ->
  sweep target (a :: b :: rest) = b :: sweep target rest.
Proof. intros target a b rest H. simpl. now rewrite H. Qed.

Lemma sweep_filter : forall target nodes,
  (noNeighbours target nodes ->
   sweep target nodes =
   filter (fun no => negb (Nat.eqb (nodeId no) target)) nodes) /\
  (forall a, noNeighbours target (a :: nodes) ->
   sweep target (a :: nodes) =
   filter (fun no => negb (Nat.eqb (nodeId no) target)) (a :: nodes)).
Proof.
  intros target. induction nodes as [| b rest [IH1 IH2]].
  - split; [reflexivity |]. intros a _. simpl.
    now destruct (Nat.eqb (nodeId a) target).
  - split; [apply IH2 |]. intros a [Hab Hrest].
    destruct (Nat.eqb (nodeId a) target) eqn:Ea.
    + rewrite (sweep_drop target a b rest Ea).
      destruct (Nat.eqb (nodeId b) target) eqn:Eb.
      * exfalso. apply Hab. split; now apply Nat.eqb_eq.
      * simpl filter. rewrite Ea, Eb. simpl. f_equal. apply IH1.
        destruct rest as [| c rest']; [exact I | apply Hrest].
    + rewrite (sweep_keep target a (b :: rest) Ea), (IH2 b Hrest).
      simpl filter at 2. now rewrite Ea.
Qed.

Lemma lookup_assign_same : forall (V : Type) (d : Dict V) key v,
  lookup (assign d key v) key = v.
Proof. intros. unfold lookup, assign. now rewrite String.eqb_refl. Qed.

Lemma lookup_assign_other : forall (V : Type) (d : Dict V) key key' v,
  key' <> key -> lookup (assign d key v) key' = lookup d key'.
Proof.
  intros V d key key' v Hne. unfold lookup, assign.
  now destruct (String.eqb_spec key' key).
Qed.


Lemma _removeName_sweep : forall node names name nodes,
  attrsName node = Some name ->
  lookup names name = Some nodes ->
  lookup (_removeName node names) name =
    match sweep (nodeId node) nodes with
    | [] => None
    | rest => Some rest
    end /\
  (forall name', name' <> name ->
     lookup (_removeName node names) name' = lookup names name').
Proof.
  intros node names name nodes Hn Hl. unfold _removeName.
  rewrite Hn, Hl.
  pose proof (removeLoop_sweep (length nodes) [] nodes (nodeId node)
                (le_n _)) as Hs.
  simpl in Hs. cbv zeta. rewrite Hs. split.
  - rewrite lookup_assign_same.
    now destruct (sweep (nodeId node) nodes).
  - intros name' Hne. now apply lookup_assign_other.
Qed.

(** X12.  [_removeName] on a list in which the node never sits next to
    itself (a list without repetitions, say): every entry with the node's
    [_id] goes, the other entries stay in their order, the entry of the
    name becomes [undefined] when nothing is left, and other names are
    untouched. *)
Theorem X12_removeName_removes_the_node : forall node names name nodes,
  attrsName node = Some name ->
  lookup names name = Some nodes ->
  noNeighbours (nodeId node) nodes ->
  lookup (_removeName node names) name =
    match filter (fun no => negb (Nat.eqb (nodeId no) (nodeId node))) nodes
    with
    | [] => None
    | rest => Some rest
    end /\
  (forall name', name' <> name ->
     lookup (_removeName node names) name' = lookup names name').
Proof.
  intros node names name nodes Hn Hl Hnn.
  destruct (_removeName_sweep node names name nodes Hn Hl) as [H1 H2].
  split; [| exact H2].
  rewrite H1. now rewrite (proj1 (sweep_filter (nodeId node) nodes) Hnn).
Qed.

Lemma sweep_repeat : forall node k,
  sweep (nodeId node) (repeat node k) = repeat node (Nat.div2 k) /\
  sweep (nodeId node) (repeat node (S k)) = repeat node (Nat.div2 (S k)).
Proof.
  intros node. induction k as [| k [IH1 IH2]].
  - split; [reflexivity |]. simpl. now rewrite Nat.eqb_refl.
  - split; [exact IH2 |].
    change (repeat node (S (S k))) with (node :: node :: repeat node k).
    rewrite sweep_drop by apply Nat.eqb_refl.
    rewrite IH1. reflexivity.
Qed.

(** X13.  The loop of [_removeName] splices the array it walks, so the
    entry after a removed one is skipped: of a node registered [k] times
    in a row under a name, one call removes only every other one and
    leaves half of them (rounded down) registered. *)
Theorem X13_removeName_skips_the_next_entry : forall node names name k,
  attrsName node = Some name ->
  lookup names name = Some (repeat node k) ->
  lookup (_removeName node names) name =
    match Nat.div2 k with
    | O => None
    | S h => Some (repeat node (S h))
    end.
Proof.
  intros node names name k Hn Hl.
  destruct (_removeName_sweep node names name (repeat node k) Hn Hl)
    as [H1 _].
  rewrite H1, (proj1 (sweep_repeat node k)).
  now destruct (Nat.div2 k).
Qed.



Lemma X12_witness :
  lookup
    (_removeName
       {| nodeId := 2; attrsId := None; attrsName := Some "dot"%string |}
       (fun _ =>
          Some
            [{| nodeId := 1; attrsId := None;
                attrsName := Some "dot"%string |};
             {| nodeId := 2; attrsId := None;
                attrsName := Some "dot"%string |};
             {| nodeId := 3; attrsId := None;
                attrsName := Some "dot"%string |}]))
    "dot"%string =
  Some [{| nodeId := 1; attrsId := None; attrsName := Some "dot"%string |};
        {| nodeId := 3; attrsId := None; attrsName := Some "dot"%string |}].
Proof.
  apply (X12_removeName_removes_the_node
           {| nodeId := 2; attrsId := None; attrsName := Some "dot"%string |}
           (fun _ =>
              Some
                [{| nodeId := 1; attrsId := None;
                    attrsName := Some "dot"%string |};
                 {| nodeId := 2; attrsId := None;
                    attrsName := Some "dot"%string |};
                 {| nodeId := 3; attrsId := None;
                    attrsName := Some "dot"%string |}])
           "dot"%string _ eq_refl eq_refl).
  simpl. repeat split; intros [H1 H2]; discriminate.
Defined.

Lemma X13_witness :
  lookup
    (_removeName
       {| nodeId := 2; attrsId := None; attrsName := Some "dot"%string |}
       (fun _ =>
          Some
            (repeat
               {| nodeId := 2; attrsId := None;
                  attrsName := Some "dot"%string |} 3)))
    "dot"%string =
  Some [{| nodeId := 2; attrsId := None; attrsName := Some "dot"%string |}].
Proof.
  apply (X13_removeName_skips_the_next_entry
           {| nodeId := 2; attrsId := None; attrsName := Some "dot"%string |}
           (fun _ =>
              Some
                (repeat
                   {| nodeId := 2; attrsId := None;
                      attrsName := Some "dot"%string |} 3))
           "dot"%string 3 eq_refl eq_refl).
Defined.


(** ** Hovering *)



(** ** A press that no shape takes *)



